(** * Vendor matching of the Data Combiner & Vendor Tagger

    A shallow embedding of [dcvt/match.py] ([match_vendor]) and of the
    matching part of [data_combiner_vendor_tagger.py] (the construction of
    [master], the helper [gpt_match] and the per-sheet "fuzzy matching, then
    GPT fallback" block), with the properties the specification states about
    them.

    Conventions.
    - A Python [str] is a [string]; its characters are the code points below
      256, which is all the whitespace classification below needs.
    - Python floats (similarity scores, the threshold, the difflib cutoff) are
      rationals [Q]: every comparison the code makes is between quotients of
      small integers, so no rounding is modelled.
    - A Python computation is a value of [py A]: the library calls it made, in
      order, and either the value it returned or the exception it raised.
    - The similarity measures of the two external libraries
      ([rapidfuzz.fuzz.partial_ratio] and the [ratio()] of
      [difflib.SequenceMatcher]) are parameters of the development; the
      selection loops around them ([process.extractOne],
      [difflib.get_close_matches]) are written out.  Module [Reference]
      gives executable scorers for the concrete examples. *)

From Stdlib Require Import List String Ascii Bool Arith ZArith QArith Qminmax Lia.
From Stdlib Require Import OrderedTypeEx.
Import ListNotations.

Close Scope Q_scope.
Local Open Scope nat_scope.
Local Open Scope string_scope.
Local Open Scope list_scope.

(** ** Python values and effects *)

(** The exceptions that can occur in the modelled code. *)
Inductive exn : Type :=
| ValueError
| IndexError
| AttributeError
| RemoteError (detail : string).

(** The calls into external libraries and services, as the code makes them. *)
Inductive event : Type :=
| ExtractOne (query : string) (choices : list string)
| GetCloseMatches (word : string) (possibilities : list string) (n : Z) (cutoff : Q)
| ChatCompletion (name : string) (master : list string).

Inductive outcome (A : Type) : Type :=
| Return (a : A)
| Raise (e : exn).

Arguments Return {A} a.
Arguments Raise {A} e.

(** A computation: the trace of external calls and the outcome. *)
Definition py (A : Type) : Type := (list event * outcome A)%type.

Definition ret {A : Type} (a : A) : py A := ([], Return a).

Definition raise {A : Type} (e : exn) : py A := ([], Raise e).

Definition log (ev : event) : py unit := ([ev], Return tt).

Definition bind {A B : Type} (m : py A) (f : A -> py B) : py B :=
  match m with
  | (t1, Raise e) => (t1, Raise e)
  | (t1, Return a) =>
      match f a with
      | (t2, o) => (t1 ++ t2, o)
      end
  end.

(** [try: body except Exception: handler]. *)
Definition try_except {A : Type} (body : py A) (handler : exn -> py A) : py A :=
  match body with
  | (t1, Return a) => (t1, Return a)
  | (t1, Raise e) =>
      match handler e with
      | (t2, o) => (t1 ++ t2, o)
      end
  end.

Notation "x <- m ;; k" := (bind m (fun x => k))
  (at level 61, m at next level, right associativity).
Notation "m ;;; k" := (bind m (fun _ => k))
  (at level 61, right associativity).

Definition trace {A : Type} (m : py A) : list event := fst m.
Definition result {A : Type} (m : py A) : outcome A := snd m.

(** The value a computation returns, [""] standing in when it raised (the
    theorems below that use it also show that nothing is raised). *)
Definition value (m : py string) : string :=
  match result m with
  | Return s => s
  | Raise _ => ""
  end.

(** ** Strings as Python sees them *)

(** [not s] for a string. *)
Definition is_empty (s : string) : bool := (s =? "")%string.

(** [not l] for a list. *)
Definition is_nil {A : Type} (l : list A) : bool :=
  match l with
  | [] => true
  | _ :: _ => false
  end.

(** [x in l] for a list of strings: equality of some element with [x]. *)
Definition py_in (x : string) (l : list string) : bool :=
  existsb (String.eqb x) l.

(** [str.isspace] on one character, for code points below 256: TAB, LF, VT,
    FF, CR, FS, GS, RS, US, SPACE, NEL and NBSP. *)
Definition isspace (c : ascii) : bool :=
  let n := nat_of_ascii c in
  ((9 <=? n) && (n <=? 13))%nat || ((28 <=? n) && (n <=? 32))%nat
  || (n =? 133)%nat || (n =? 160)%nat.

Fixpoint lstrip (s : string) : string :=
  match s with
  | EmptyString => EmptyString
  | String c s' => if isspace c then lstrip s' else s
  end.

Fixpoint rstrip (s : string) : string :=
  match s with
  | EmptyString => EmptyString
  | String c s' =>
      let r := rstrip s' in
      if isspace c && is_empty r then EmptyString else String c r
  end.

(** [s.strip()]. *)
Definition strip (s : string) : string := rstrip (lstrip s).

(** Every character of [s] is whitespace. *)
Fixpoint all_space (s : string) : bool :=
  match s with
  | EmptyString => true
  | String c s' => isspace c && all_space s'
  end.

(** ** Python numbers *)

Definition Qlt_bool (x y : Q) : bool := negb (Qle_bool y x).

(** [min(a, b)] and [max(a, b)]: the first argument unless the second is
    strictly better. *)
Definition py_min (a b : Q) : Q := if Qlt_bool b a then b else a.
Definition py_max (a b : Q) : Q := if Qlt_bool a b then b else a.

(** Comparison of the [(score, word)] pairs that [get_close_matches] ranks:
    lexicographic, strings by code point. *)
Definition pair_lt (p q : Q * string) : bool :=
  Qlt_bool (fst p) (fst q)
  || (Qeq_bool (fst p) (fst q) && String.ltb (snd p) (snd q)).

(** [max(items)] over a non-empty sequence of pairs, [best] being the first
    item: a later item replaces the best one only when strictly greater. *)
Definition max_pair (best : Q * string) (items : list (Q * string)) : Q * string :=
  fold_left (fun b item => if pair_lt b item then item else b) items best.

(** Insertion into a list kept in decreasing order, before the items that
    compare equal (so that folding from the right is a stable sort). *)
Fixpoint insert_desc (p : Q * string) (l : list (Q * string)) : list (Q * string) :=
  match l with
  | [] => [p]
  | q :: l' => if pair_lt p q then q :: insert_desc p l' else p :: l
  end.

(** [heapq.nlargest(n, items)]: the [n] greatest items, greatest first.  For
    [n = 1] the library takes [max(items)]. *)
Definition nlargest (n : nat) (items : list (Q * string)) : list (Q * string) :=
  match n, items with
  | 1, [] => []
  | 1, p :: rest => [max_pair p rest]
  | _, _ => firstn n (fold_right insert_desc [] items)
  end.

(** ** Reference scorers

    Executable versions of the two similarity measures, used by the concrete
    examples: the partial ratio as the best normalised
    longest-common-subsequence similarity of the shorter string against the
    windows of the longer one, and difflib's ratio from the Ratcliff-Obershelp
    matching blocks (words shorter than 200 characters, where difflib applies
    no popularity heuristic). *)
Module Reference.

(** Length of a longest common subsequence. *)
Fixpoint lcs (a b : list ascii) {struct a} : nat :=
  match a with
  | [] => 0
  | x :: a' =>
      (fix lcs_row (b : list ascii) : nat :=
         match b with
         | [] => 0
         | y :: b' =>
             if Ascii.eqb x y then S (lcs a' b')
             else Nat.max (lcs a' b) (lcs_row b')
         end) b
  end.

(** [rapidfuzz.fuzz.ratio]: [100 * 2 * lcs / (len1 + len2)]. *)
Definition indel_ratio (s1 s2 : list ascii) : Q :=
  let total := List.length s1 + List.length s2 in
  if (total =? 0)%nat then 100%Q
  else (Z.of_nat (200 * lcs s1 s2) # Pos.of_nat total)%Q.

(** The window of [long] that a needle of [m] characters covers when its
    last character lies on position [k]: [long[max(0, k - m + 1) : k + 1]]. *)
Definition window (m : nat) (long : list ascii) (k : nat) : list ascii :=
  let lo := (k + 1 - m)%nat in
  let hi := Nat.min (List.length long) (k + 1) in
  firstn (hi - lo) (skipn lo long).

Definition best_window (short long : list ascii) : Q :=
  let m := List.length short in
  fold_left
    (fun best k => py_max best (indel_ratio short (window m long k)))
    (seq 0 (List.length long + m - 1)) 0%Q.

(** [rapidfuzz.fuzz.partial_ratio]. *)
Definition partial_ratio (s1 s2 : string) : Q :=
  let a := list_ascii_of_string s1 in
  let b := list_ascii_of_string s2 in
  match a, b with
  | [], [] => 100%Q
  | [], _ | _, [] => 0%Q
  | _, _ =>
      if (List.length a <? List.length b)%nat then best_window a b
      else if (List.length b <? List.length a)%nat then best_window b a
      else py_max (best_window a b) (best_window b a)
  end.

(** Length of the longest common prefix. *)
Fixpoint common_prefix (a b : list ascii) : nat :=
  match a, b with
  | x :: a', y :: b' => if Ascii.eqb x y then S (common_prefix a' b') else 0
  | _, _ => 0
  end.

Fixpoint scan_b (a b : list ascii) (i j : nat) (best : nat * nat * nat)
  : nat * nat * nat :=
  match b with
  | [] => best
  | _ :: b' =>
      let k := common_prefix a b in
      scan_b a b' i (S j) (if (snd best <? k)%nat then (i, j, k) else best)
  end.

Fixpoint scan_a (a b : list ascii) (i : nat) (best : nat * nat * nat)
  : nat * nat * nat :=
  match a with
  | [] => best
  | _ :: a' => scan_a a' b (S i) (scan_b a b i 0 best)
  end.

(** [find_longest_match]: the longest common block [(i, j, k)], the one
    starting earliest in [a], then earliest in [b]. *)
Definition find_longest_match (a b : list ascii) : nat * nat * nat :=
  scan_a a b 0 (0, 0, 0).

(** Total size of the matching blocks: the longest block, then the same to
    its left and to its right. *)
Fixpoint matches (fuel : nat) (a b : list ascii) : nat :=
  match fuel with
  | 0 => 0
  | S fuel' =>
      match find_longest_match a b with
      | (i, j, k) =>
          if (k =? 0)%nat then 0
          else matches fuel' (firstn i a) (firstn j b) + k
               + matches fuel' (skipn (i + k) a) (skipn (j + k) b)
      end
  end.

(** [SequenceMatcher(None, a, b).ratio()]: [2.0 * matches / length], and
    [1.0] for two empty strings. *)
Definition ratio (s1 s2 : string) : Q :=
  let a := list_ascii_of_string s1 in
  let b := list_ascii_of_string s2 in
  let total := List.length a + List.length b in
  if (total =? 0)%nat then 1%Q
  else (Z.of_nat (2 * matches (S total) a b) # Pos.of_nat total)%Q.

End Reference.

(** ** The vendor master list ([data_combiner_vendor_tagger.py], lines 82-86) *)

(** [Series.dropna()]: a cell is [None] when pandas holds a missing value for
    it (the way it reads an empty cell). *)
Fixpoint dropna (column : list (option string)) : list string :=
  match column with
  | [] => []
  | None :: rest => dropna rest
  | Some v :: rest => v :: dropna rest
  end.

(** [Series.unique()]: the values in order of appearance, each once. *)
Fixpoint unique_from (seen values : list string) : list string :=
  match values with
  | [] => []
  | v :: rest =>
      if py_in v seen then unique_from seen rest
      else v :: unique_from (v :: seen) rest
  end.

Definition unique (values : list string) : list string := unique_from [] values.

(** [df_vendors] is the list of the sheet's columns.  The run stops
    ([None]) unless there is exactly one; otherwise
    [master = df_vendors.iloc[:, 0].dropna().unique().tolist()]. *)
Definition vendor_master (df_vendors : list (list (option string)))
  : option (list string) :=
  match df_vendors with
  | [column] => Some (unique (dropna column))
  | _ => None
  end.

(** A blank entry: nothing but whitespace (the empty string included). *)
Definition is_blank (s : string) : bool := is_empty (strip s).

(** Position of the first occurrence of [x] in [l] ([length l] when absent). *)
Fixpoint first_index (x : string) (l : list string) : nat :=
  match l with
  | [] => 0
  | y :: l' => if String.eqb x y then 0 else S (first_index x l')
  end.

(** What the remote text-generation service does with one request: the call
    raises, or it answers with [resp.choices], each choice carrying its
    [message.content] ([None] when the message has no text). *)
Inductive completion : Type :=
| Failed (e : exn)
| Responded (choices : list (option string)).

(** The 0-100 threshold rescaled as the degraded path does it (line 46). *)
Definition cutoff_of_threshold (threshold : Q) : Q :=
  py_max 0%Q (py_min 1%Q (threshold / 100)%Q).


Section Deployment.

(** [rapidfuzz.fuzz.partial_ratio], scores on the 0-100 scale. *)
Variable partial_ratio : string -> string -> Q.

(** [difflib.SequenceMatcher(None, a, b).ratio()], scores between 0 and 1. *)
Variable ratio : string -> string -> Q.

(** Whether [import rapidfuzz] succeeded; [process] and [fuzz] are [None]
    exactly when it did not. *)
Variable _RAPIDFUZZ : bool.

(** *** Library selection loops *)

(** The scan of [process.extractOne]: the running best [(choice, score,
    index)] is replaced only by a strictly greater score, so of several
    choices with the top score the first one is kept. *)
Fixpoint extractOne_scan (scorer : string -> string -> Q) (query : string)
    (choices : list string) (index : nat) (best : option (string * Q * nat))
  : option (string * Q * nat) :=
  match choices with
  | [] => best
  | choice :: rest =>
      let score := scorer query choice in
      extractOne_scan scorer query rest (S index)
        (match best with
         | None => Some (choice, score, index)
         | Some (_, best_score, _) =>
             if Qlt_bool best_score score then Some (choice, score, index)
             else best
         end)
  end.

(** [process.extractOne(query, choices, scorer=scorer)], no processor and no
    score cutoff: [None] only for an empty list of choices.  (The library's
    default cutoff is 0, the least score there is, and it stops scanning at a
    score of 100, the greatest; neither changes the result.) *)
Definition extractOne (query : string) (choices : list string)
    (scorer : string -> string -> Q) : py (option (string * Q * nat)) :=
  log (ExtractOne query choices) ;;;
  ret (extractOne_scan scorer query choices 0 None).

(** The candidates [get_close_matches] keeps, with their scores: those whose
    ratio against [word] reaches the cutoff (the two quick upper bounds the
    library tests first never reject a word that [ratio] accepts). *)
Fixpoint close_enough (word : string) (possibilities : list string) (cutoff : Q)
  : list (Q * string) :=
  match possibilities with
  | [] => []
  | x :: rest =>
      if Qle_bool cutoff (ratio x word)
      then (ratio x word, x) :: close_enough word rest cutoff
      else close_enough word rest cutoff
  end.

(** [difflib.get_close_matches(word, possibilities, n, cutoff)]. *)
Definition get_close_matches (word : string) (possibilities : list string)
    (n : Z) (cutoff : Q) : py (list string) :=
  log (GetCloseMatches word possibilities n cutoff) ;;;
  if negb (0 <? n)%Z then raise ValueError
  else if negb (Qle_bool 0%Q cutoff && Qle_bool cutoff 1%Q) then raise ValueError
  else ret (map snd (nlargest (Z.to_nat n) (close_enough word possibilities cutoff))).

(** *** [dcvt/match.py] *)

Definition match_vendor (name : string) (master : list string) (threshold : Q)
    (use_rapidfuzz : option bool) : py string :=
  let master_list := master in
  if is_empty name || is_nil master_list then ret ""
  else
    let use_rapidfuzz :=
      match use_rapidfuzz with
      | None => _RAPIDFUZZ
      | Some flag => flag
      end in
    if use_rapidfuzz && _RAPIDFUZZ then
      m <- extractOne name master_list partial_ratio ;;
      match m with
      | Some (choice, score, _) =>
          if Qle_bool threshold score then ret choice else ret ""
      | None => ret ""
      end
    else
      let cutoff := cutoff_of_threshold threshold in
      matches <- get_close_matches name master_list 1%Z cutoff ;;
      match matches with
      | first :: _ => ret first
      | [] => ret ""
      end.

(** *** [data_combiner_vendor_tagger.py] *)

Section Session.

(** Sidebar configuration and uploaded reference data of one run. *)
Variable gpt_available : bool.
Variable client : string -> list string -> completion.
Variable threshold : Q.
Variable master : list string.

(** [client.chat.completions.create(...)]: the prompt is a function of
    [name] and [master], and so is the service's behaviour here. *)
Definition chat_completions_create (name : string)
  : py (list (option string)) :=
  log (ChatCompletion name master) ;;;
  match client name master with
  | Failed e => raise e
  | Responded choices => ret choices
  end.

(** [resp.choices[0].message.content.strip()]. *)
Definition first_choice_stripped (choices : list (option string)) : py string :=
  match choices with
  | [] => raise IndexError
  | None :: _ => raise AttributeError
  | Some content :: _ => ret (strip content)
  end.

Definition gpt_match (name : string) : py string :=
  attempt <- try_except
               (resp <- chat_completions_create name ;;
                choice <- first_choice_stripped resp ;;
                ret (Some choice))
               (fun _ => ret None) ;;
  match attempt with
  | None => ret ""
  | Some choice => if py_in choice master then ret choice else ret ""
  end.

(** Lines 156-160: the deterministic step of one sheet. *)
Definition fuzzy_matching (title : string) : py string :=
  let vendor := "" in
  if _RAPIDFUZZ then
    m <- extractOne title master partial_ratio ;;
    match m with
    | Some (choice, score, _) =>
        if Qle_bool threshold score then ret choice else ret vendor
    | None => ret vendor
    end
  else ret vendor.

(** Lines 156-166: the vendor written into every row of the sheet. *)
Definition sheet_vendor (title : string) : py string :=
  vendor <- fuzzy_matching title ;;
  if is_empty vendor && gpt_available then gpt_match title
  else ret vendor.

End Session.

End Deployment.

(** ** Sheet and table names ([data_combiner_vendor_tagger.py], lines 127, 144-145) *)

(** [s.rsplit('.', 1)]: the parts around the last dot, [None] when [s] has
    no dot. *)
Fixpoint rsplit_dot (s : string) : option (string * string) :=
  match s with
  | EmptyString => None
  | String c s' =>
      match rsplit_dot s' with
      | Some (head, tail) => Some (String c head, tail)
      | None => if Ascii.eqb c "." then Some (EmptyString, s') else None
      end
  end.

(** [s.rsplit('.', 1)[0]]. *)
Definition rsplit_dot_head (s : string) : string :=
  match rsplit_dot s with
  | Some (head, _) => head
  | None => s
  end.

(** [s[:n]]. *)
Fixpoint slice_to (n : nat) (s : string) : string :=
  match n, s with
  | S n', String c s' => String c (slice_to n' s')
  | _, _ => EmptyString
  end.

(** Line 127: [sheet_name = f.name.rsplit('.', 1)[0][:31]]. *)
Definition sheet_name (f_name : string) : string :=
  slice_to 31 (rsplit_dot_head f_name).

(** A character of the class [[A-Za-z0-9_]]. *)
Definition is_word_char (c : ascii) : bool :=
  let n := nat_of_ascii c in
  ((65 <=? n) && (n <=? 90))%nat || ((97 <=? n) && (n <=? 122))%nat
  || ((48 <=? n) && (n <=? 57))%nat || (n =? 95)%nat.

(** Line 144: [safe = re.sub(r'[^A-Za-z0-9_]', '_', ws.title)]. *)
Fixpoint safe (title : string) : string :=
  match title with
  | EmptyString => EmptyString
  | String c rest => String (if is_word_char c then c else "_"%char) (safe rest)
  end.

(** Line 145: [displayName=f"tbl_{safe}"]. *)
Definition displayName (title : string) : string := ("tbl_" ++ safe title)%string.

Fixpoint all_word_chars (s : string) : bool :=
  match s with
  | EmptyString => true
  | String c rest => is_word_char c && all_word_chars rest
  end.

Fixpoint has_dot (s : string) : bool :=
  match s with
  | EmptyString => false
  | String c rest => Ascii.eqb c "." || has_dot rest
  end.

(** ** Writing the vendor into a sheet (lines 165-166) *)

(** A worksheet as the code uses it: its title, the extent openpyxl reports,
    and the value of each cell by row and column (both counted from 1). *)
Record worksheet : Type := {
  ws_title : string;
  max_row : nat;
  max_column : nat;
  cell_value : nat -> nat -> option string
}.

(** [ws.cell(row, column).value = v]. *)
Definition set_cell_value (ws : worksheet) (row column : nat) (v : string)
  : worksheet :=
  {| ws_title := ws_title ws;
     max_row := max_row ws;
     max_column := max_column ws;
     cell_value := fun r c =>
       if ((r =? row) && (c =? column))%nat then Some v else cell_value ws r c |}.

(** [vendor or ""]. *)
Definition or_empty (vendor : string) : string :=
  if is_empty vendor then "" else vendor.

(** [for row in ws.iter_rows(min_row=2, max_row=max_row, min_col=1, max_col=1):
    row[0].value = vendor or ""]. *)
Definition write_vendor (ws : worksheet) (vendor : string) : worksheet :=
  fold_left (fun w row => set_cell_value w row 1 (or_empty vendor))
    (seq 2 (max_row ws - 1)) ws.

(** ** Command-line tools: effects *)

Module Cli.

(** What a tool does to the outside: a line printed, a line read after a
    prompt, a child process run to its end. *)
Inductive action : Type :=
| Print (text : string)
| Input (prompt : string)
| Subprocess (cmd : list string) (cwd : option string).

Inductive error : Type :=
| CalledProcessError (cmd : list string)
| EOFError
| RuntimeError (message : string).

(** A run of a tool: what it did, and its value or the exception raised. *)
Definition io (A : Type) : Type := (list action * (error + A))%type.

Definition pure {A : Type} (a : A) : io A := ([], inr a).

Definition throw {A : Type} (e : error) : io A := ([], inl e).

Definition act (a : action) : io unit := ([a], inr tt).

Definition and_then {A B : Type} (m : io A) (f : A -> io B) : io B :=
  match m with
  | (t1, inl e) => (t1, inl e)
  | (t1, inr a) =>
      match f a with
      | (t2, o) => (t1 ++ t2, o)
      end
  end.

(** [for x in xs: body(x)]. *)
Fixpoint for_each {A : Type} (xs : list A) (body : A -> io unit) : io unit :=
  match xs with
  | [] => pure tt
  | x :: rest => and_then (body x) (fun _ => for_each rest body)
  end.

(** The child processes a run started, in order. *)
Fixpoint subprocesses (t : list action) : list (list string) :=
  match t with
  | [] => []
  | Subprocess cmd _ :: rest => cmd :: subprocesses rest
  | _ :: rest => subprocesses rest
  end.

(** [" ".join(words)]. *)
Definition join_space (words : list string) : string := String.concat " " words.

Section Process.

(** The interpreter path, the line standard input holds ([None] at end of
    input) and whether a command exits with status 0. *)
Variable sys_executable : string.
Variable stdin : option string.
Variable exit_ok : list string -> bool.

(** [subprocess.run(cmd, cwd=cwd, check=check)]. *)
Definition subprocess_run (cmd : list string) (cwd : option string) (check : bool)
  : io unit :=
  and_then (act (Subprocess cmd cwd)) (fun _ =>
  if check && negb (exit_ok cmd) then throw (CalledProcessError cmd) else pure tt).

(** [input(prompt)]. *)
Definition input (prompt : string) : io string :=
  and_then (act (Input prompt)) (fun _ =>
  match stdin with
  | Some line => pure line
  | None => throw EOFError
  end).

End Process.

End Cli.

(** ** [tools/check_deps.py] *)

Module CheckDeps.

Import Cli.

(** [s.startswith(p)]. *)
Definition startswith (s p : string) : bool := String.prefix p s.

(** [needle in s] for strings. *)
Fixpoint contains (needle s : string) : bool :=
  String.prefix needle s
  || match s with
     | EmptyString => false
     | String _ rest => contains needle rest
     end.

(** One character of [s.lower()], for code points below 256: the letters
    A-Z and the accented capitals 192-222 (multiplication sign apart) move
    up by 32. *)
Definition lower_char (c : ascii) : ascii :=
  let n := nat_of_ascii c in
  if ((65 <=? n) && (n <=? 90))%nat || ((192 <=? n) && (n <=? 214))%nat
     || ((216 <=? n) && (n <=? 222))%nat
  then ascii_of_nat (n + 32) else c.

Fixpoint lower (s : string) : string :=
  match s with
  | EmptyString => EmptyString
  | String c rest => String (lower_char c) (lower rest)
  end.

Record DepStatus : Type := {
  name : string;
  spec : string;
  installed : option string;
  latest : option string;
  status : string
}.

(** Truth value of an optional string: [None] and [""] are false. *)
Definition truthy (v : option string) : bool :=
  match v with
  | Some s => negb (is_empty s)
  | None => false
  end.

(** [read_requirements], from the lines of the file as iteration yields
    them. *)
Fixpoint read_requirements (fh : list string) : list string :=
  match fh with
  | [] => []
  | raw :: rest =>
      let line := strip raw in
      if is_empty line || startswith line "#" then read_requirements rest
      else if startswith line "-e" || contains "git+" line
              || startswith line "https://"
      then read_requirements rest
      else line :: read_requirements rest
  end.

(** Whether one of [==], [>=], [<=], [~=], [>], [<] starts [s]. *)
Definition operator_here (s : string) : bool :=
  String.prefix "==" s || String.prefix ">=" s || String.prefix "<=" s
  || String.prefix "~=" s || String.prefix ">" s || String.prefix "<" s.

(** [re.split(r"\s*(==|>=|<=|~=|>|<)\s*", s, maxsplit=1)[0]] when the pattern
    matches: the text before the leftmost match, which starts where
    whitespace, if any, leads up to an operator.  [None] when nothing
    matches (the split then has a single element). *)
Fixpoint split_at_operator (s : string) : option string :=
  if operator_here (lstrip s) then Some EmptyString
  else match s with
       | EmptyString => None
       | String c rest =>
           match split_at_operator rest with
           | Some head => Some (String c head)
           | None => None
           end
       end.

Definition is_operator_char (c : ascii) : bool :=
  Ascii.eqb c "=" || Ascii.eqb c "<" || Ascii.eqb c ">" || Ascii.eqb c "!"
  || Ascii.eqb c "~".

(** [re.split(r"[=<>!~]", s, maxsplit=1)[0]]. *)
Fixpoint before_operator_char (s : string) : string :=
  match s with
  | EmptyString => EmptyString
  | String c rest =>
      if is_operator_char c then EmptyString
      else String c (before_operator_char rest)
  end.

(** A name made of characters that are neither whitespace nor one of
    [=<>!~]. *)
Fixpoint plain_name (s : string) : bool :=
  match s with
  | EmptyString => true
  | String c rest => negb (is_operator_char c) && negb (isspace c) && plain_name rest
  end.

(** Whether the character [c] occurs in [s]. *)
Fixpoint has_char (c : ascii) (s : string) : bool :=
  match s with
  | EmptyString => false
  | String d rest => Ascii.eqb c d || has_char c rest
  end.

(** What the [packaging] distribution provides when it can be imported: the
    name of a parsed requirement ([None] when parsing raises) and the
    comparison [parse_version(a) < parse_version(b)] ([None] when a version
    is invalid). *)
Record packaging_api : Type := {
  requirement_name : string -> option string;
  version_lt : string -> string -> option bool
}.

(** The answer of PyPI to one request: no answer, or a status code and the
    ["version"] entry of the body's ["info"] ([None] when the body cannot be
    read that way, [Some None] when the entry is absent). *)
Inductive http_result : Type :=
| ConnectionFailed
| Response (status_code : Z) (version : option (option string)).

Section Environment.

Variable packaging : option packaging_api.

(** [importlib.metadata.version]; [None] when it raises. *)
Variable installed_version : string -> option string.

(** [requests.get] on the package's PyPI address; [None] when [requests]
    cannot be imported. *)
Variable requests_get : option (string -> http_result).

Definition fallback_name (req_line : string) : string :=
  match split_at_operator req_line with
  | Some head => head
  | None => before_operator_char req_line
  end.

Definition req_name_and_spec (req_line : string) : string * string :=
  match packaging with
  | Some api =>
      match requirement_name api req_line with
      | Some parsed => (parsed, req_line)
      | None => (fallback_name req_line, req_line)
      end
  | None => (fallback_name req_line, req_line)
  end.

Definition get_latest_version_from_pypi (pkg : string) : error + option string :=
  match requests_get with
  | None => inl (RuntimeError "requests library is required to query PyPI. Install it to enable this feature.")
  | Some get =>
      inr (match get pkg with
           | ConnectionFailed => None
           | Response status_code body =>
               if negb (status_code =? 200)%Z then None
               else match body with
                    | Some version => version
                    | None => None
                    end
           end)
  end.

(** The body of the loop of [check_deps] for one requirement line. *)
Definition check_one (spec_line : string) : DepStatus :=
  let pkg := fst (req_name_and_spec spec_line) in
  let inst := installed_version pkg in
  let newest :=
    match get_latest_version_from_pypi pkg with
    | inr v => v
    | inl _ => None
    end in
  let verdict :=
    if negb (truthy inst) then "missing"
    else
      match truthy newest, packaging, inst, newest with
      | true, Some api, Some i, Some l =>
          match version_lt api i l with
          | Some true => "outdated"
          | Some false => "up-to-date"
          | None => "error"
          end
      | _, _, _, _ => "unknown"
      end in
  {| name := pkg; spec := spec_line; installed := inst; latest := newest;
     status := verdict |}.

(** [check_deps], from the lines of the requirements file. *)
Definition check_deps (fh : list string) : list DepStatus :=
  map check_one (read_requirements fh).

End Environment.

(** *** [print_table] *)

Definition cols : list string := ["package"; "spec"; "installed"; "latest"; "status"].

(** [v or "-"]. *)
Definition or_dash (v : option string) : string :=
  match v with
  | Some s => if is_empty s then "-" else s
  | None => "-"
  end.

Definition table_row (r : DepStatus) : list string :=
  [name r; spec r; or_dash (installed r); or_dash (latest r); status r].

(** The columns of a table whose rows are as long as the header (what
    [zip] makes of the rows). *)
Definition columns (table : list (list string)) : list (list string) :=
  map (fun k => map (fun row => nth k row EmptyString) table)
    (seq 0 (List.length cols)).

(** [max(len(str(cell)) for cell in col)]. *)
Definition width (col : list string) : nat :=
  fold_right Nat.max 0 (map String.length col).

Definition widths (results : list DepStatus) : list nat :=
  map width (columns (cols :: map table_row results)).

Fixpoint spaces (n : nat) : string :=
  match n with
  | 0 => EmptyString
  | S n' => String " " (spaces n')
  end.

(** ["{:w}".format(s)] for a string: padded on the right up to [w]. *)
Definition pad (w : nat) (s : string) : string :=
  (s ++ spaces (w - String.length s))%string.

(** [fmt.format] on a row, [fmt] being the widths joined by two spaces. *)
Definition format_row (ws : list nat) (row : list string) : string :=
  String.concat "  " (map (fun wr => pad (fst wr) (snd wr)) (combine ws row)).

Fixpoint dashes (n : nat) : string :=
  match n with
  | 0 => EmptyString
  | S n' => String "-" (dashes n')
  end.

(** The lines [print_table] prints, in order. *)
Definition table_lines (results : list DepStatus) : list string :=
  let ws := widths results in
  format_row ws cols
  :: dashes (list_sum ws + 2 * (List.length ws - 1))
  :: map (fun r => format_row ws (table_row r)) results.

Definition print_table (results : list DepStatus) : io unit :=
  for_each (table_lines results) (fun line => act (Print line)).

(** *** [upgrade_packages] *)

Definition needs_install (p : DepStatus) : bool :=
  String.eqb (status p) "missing" || String.eqb (status p) "outdated".

Definition to_install (pkgs : list DepStatus) : list string :=
  map name (filter needs_install pkgs).

Section Upgrade.

Variable sys_executable : string.
Variable stdin : option string.
Variable exit_ok : list string -> bool.

Definition pip_install (pkg : string) : list string :=
  [sys_executable; "-m"; "pip"; "install"; "-U"; pkg].

Definition install_all (pkgs : list string) : io unit :=
  and_then
    (for_each pkgs (fun pkg =>
       let cmd := pip_install pkg in
       and_then (act (Print ("Running: " ++ join_space cmd)%string)) (fun _ =>
       subprocess_run exit_ok cmd None true)))
    (fun _ => act (Print "Upgrade complete.")).

Definition upgrade_packages (pkgs : list DepStatus) (assume_yes : bool) : io unit :=
  let to_install := to_install pkgs in
  if is_nil to_install then act (Print "No packages to upgrade/install.")
  else
    and_then (act (Print "Packages to install/upgrade:")) (fun _ =>
    and_then (for_each to_install (fun p => act (Print (" - " ++ p)%string)))
      (fun _ =>
    if negb assume_yes then
      and_then
        (input stdin "Proceed with pip install -U for the above packages? [y/N]: ")
        (fun answer =>
      let yn := lower (strip answer) in
      if negb (String.eqb yn "y" || String.eqb yn "yes")
      then act (Print "Aborted by user.")
      else install_all to_install)
    else install_all to_install)).

End Upgrade.

End CheckDeps.

(** ** [tools/dev_tools.py] *)

Module DevTools.

Import Cli.

Section Environment.

Variable sys_executable : string.
Variable exit_ok : list string -> bool.

(** [str(ROOT)], [str(ROOT / ".venv")], whether that directory exists, and
    the text of [p.print_help()]. *)
Variable ROOT : string.
Variable venv_dir : string.
Variable venv_exists : bool.
Variable help : string.

Definition run (cmd : list string) (check : bool) : io unit :=
  and_then (act (Print ("Running: " ++ join_space cmd)%string)) (fun _ =>
  subprocess_run exit_ok cmd (Some ROOT) check).

Definition cmd_format : io unit :=
  and_then
    (run [sys_executable; "-m"; "black"; "--line-length"; "88"; "--quiet"; "."] true)
    (fun _ => run [sys_executable; "-m"; "isort"; "."] true).

Definition cmd_lint : io unit :=
  run [sys_executable; "-m"; "ruff"; "check"; "."] true.

Definition cmd_test : io unit :=
  run [sys_executable; "-m"; "pytest"; "-q"] true.

Definition cmd_check_deps : io unit :=
  run [sys_executable; "tools/check_deps.py"; "--requirements"; "requirements.txt"]
    true.

Definition cmd_install_venv : io unit :=
  if venv_exists
  then act (Print ("Virtualenv already exists at " ++ venv_dir)%string)
  else and_then (run [sys_executable; "-m"; "venv"; venv_dir] true) (fun _ =>
       act (Print "Created virtualenv at .venv")).

(** [main], from [args.cmd] as [parse_args] leaves it ([None] when no
    subcommand was given). *)
Definition main (args_cmd : option string) : io unit :=
  match args_cmd with
  | Some word =>
      if String.eqb word "format" then cmd_format
      else if String.eqb word "lint" then cmd_lint
      else if String.eqb word "test" then cmd_test
      else if String.eqb word "check-deps" then cmd_check_deps
      else if String.eqb word "install-venv" then cmd_install_venv
      else act (Print help)
  | None => act (Print help)
  end.

End Environment.

End DevTools.

(** * Properties *)

(** ** Booleans of the embedding *)

Lemma is_empty_true (s : string) : is_empty s = true <-> s = "".
Proof. unfold is_empty. apply String.eqb_eq. Qed.

Lemma is_empty_false (s : string) : is_empty s = false <-> s <> "".
Proof. unfold is_empty. apply String.eqb_neq. Qed.

Lemma is_nil_false {A : Type} (l : list A) : is_nil l = false <-> l <> [].
Proof. destruct l; simpl; split; congruence. Qed.

Lemma py_in_true (x : string) (l : list string) : py_in x l = true <-> In x l.
Proof.
  unfold py_in. rewrite existsb_exists. split.
  - intros [y [Hy Heq]]. apply String.eqb_eq in Heq. now subst.
  - intros H. exists x. split; [assumption | apply String.eqb_refl].
Qed.

Lemma py_in_false (x : string) (l : list string) : py_in x l = false <-> ~ In x l.
Proof.
  rewrite <- py_in_true. destruct (py_in x l); split; congruence.
Qed.

Lemma Qlt_bool_true (x y : Q) : Qlt_bool x y = true <-> (x < y)%Q.
Proof.
  unfold Qlt_bool. rewrite negb_true_iff. split.
  - intros H. apply Qnot_le_lt. intros Hle.
    apply Qle_bool_iff in Hle. congruence.
  - intros H. destruct (Qle_bool y x) eqn:E; [|reflexivity].
    apply Qle_bool_iff in E. exfalso. exact (Qlt_not_le _ _ H E).
Qed.

Lemma Qlt_bool_false (x y : Q) : Qlt_bool x y = false <-> (y <= x)%Q.
Proof.
  unfold Qlt_bool. rewrite negb_false_iff. apply Qle_bool_iff.
Qed.

(** ** The threshold rescaling *)

Lemma py_min_spec (a b : Q) : (py_min a b == Qmin a b)%Q.
Proof.
  unfold py_min. destruct (Qlt_bool b a) eqn:E.
  - apply Qlt_bool_true in E. symmetry. apply Q.min_r. now apply Qlt_le_weak.
  - apply Qlt_bool_false in E. symmetry. now apply Q.min_l.
Qed.

Lemma py_max_spec (a b : Q) : (py_max a b == Qmax a b)%Q.
Proof.
  unfold py_max. destruct (Qlt_bool a b) eqn:E.
  - apply Qlt_bool_true in E. symmetry. apply Q.max_r. now apply Qlt_le_weak.
  - apply Qlt_bool_false in E. symmetry. now apply Q.max_l.
Qed.

Lemma cutoff_in_range (threshold : Q) :
  (0 <= cutoff_of_threshold threshold <= 1)%Q.
Proof.
  unfold cutoff_of_threshold, py_max, py_min.
  destruct (Qlt_bool (threshold / 100) 1) eqn:E1;
    [apply Qlt_bool_true in E1 | apply Qlt_bool_false in E1].
  - destruct (Qlt_bool 0 (threshold / 100)) eqn:E2;
      [apply Qlt_bool_true in E2 | apply Qlt_bool_false in E2].
    + split; now apply Qlt_le_weak.
    + split; [apply Qle_refl | discriminate].
  - destruct (Qlt_bool 0 1) eqn:E2.
    + split; [discriminate | apply Qle_refl].
    + split; [apply Qle_refl | discriminate].
Qed.


Lemma cutoff_monotone (t1 t2 : Q) :
  (t2 <= t1)%Q -> (cutoff_of_threshold t2 <= cutoff_of_threshold t1)%Q.
Proof.
  intros H. unfold cutoff_of_threshold.
  rewrite !py_max_spec, !py_min_spec.
  apply Q.max_le_compat_l. apply Q.min_le_compat_l.
  unfold Qdiv. apply Qmult_le_compat_r; [assumption | discriminate].
Qed.

(** ** The order on [(score, word)] pairs *)

Lemma string_ltb_trans (a b c : string) :
  String.ltb a b = true -> String.ltb b c = true -> String.ltb a c = true.
Proof.
  unfold String.ltb. intros Hab Hbc.
  destruct (String.compare a b) eqn:Eab; try discriminate.
  destruct (String.compare b c) eqn:Ebc; try discriminate.
  apply String_as_OT.cmp_lt in Eab. apply String_as_OT.cmp_lt in Ebc.
  pose proof (String_as_OT.lt_trans _ _ _ Eab Ebc) as Hac.
  apply String_as_OT.cmp_lt in Hac. unfold String_as_OT.cmp in Hac.
  now rewrite Hac.
Qed.

Lemma string_ltb_connected (a b : string) :
  String.ltb a b = false -> String.ltb b a = false -> a = b.
Proof.
  unfold String.ltb. rewrite (String.compare_antisym b a).
  destruct (String.compare a b) eqn:E; simpl; try discriminate.
  intros _ _. now apply String.compare_eq_iff.
Qed.

Lemma string_ltb_irrefl (a : string) : String.ltb a a = false.
Proof.
  unfold String.ltb.
  pose proof (String.compare_antisym a a) as H.
  destruct (String.compare a a); simpl in H; congruence.
Qed.

Lemma string_ltb_empty (s : string) : s <> "" -> String.ltb "" s = true.
Proof. destruct s; [congruence | reflexivity]. Qed.

Lemma pair_lt_true (p q : Q * string) :
  pair_lt p q = true <->
  (fst p < fst q)%Q \/ ((fst p == fst q)%Q /\ String.ltb (snd p) (snd q) = true).
Proof.
  unfold pair_lt. rewrite orb_true_iff, andb_true_iff, Qlt_bool_true, Qeq_bool_iff.
  reflexivity.
Qed.

Lemma pair_lt_trans (p q r : Q * string) :
  pair_lt p q = true -> pair_lt q r = true -> pair_lt p r = true.
Proof.
  rewrite !pair_lt_true. intros [H1 | [H1 S1]] [H2 | [H2 S2]].
  - left. now apply Qlt_trans with (fst q).
  - left. now rewrite <- H2.
  - left. now rewrite H1.
  - right. split; [now rewrite H1 | now apply string_ltb_trans with (snd q)].
Qed.

(** Negative transitivity: what is below [i] is below whatever is not. *)
Lemma pair_lt_cotrans (m b i : Q * string) :
  pair_lt m i = true -> pair_lt b i = false -> pair_lt m b = true.
Proof.
  intros Hmi Hbi. apply pair_lt_true in Hmi. apply pair_lt_true.
  assert (Hle : (fst i <= fst b)%Q).
  { apply Qnot_lt_le. intros Hlt.
    assert (pair_lt b i = true) by (apply pair_lt_true; now left). congruence. }
  destruct (Qlt_le_dec (fst i) (fst b)) as [Hlt | Hge].
  - left. destruct Hmi as [H | [H _]].
    + now apply Qlt_trans with (fst i).
    + now rewrite H.
  - assert (Heq : (fst b == fst i)%Q) by now apply Qle_antisym.
    destruct Hmi as [H | [H S]].
    + left. now rewrite Heq.
    + right. split; [now rewrite H, Heq|].
      destruct (String.ltb (snd b) (snd i)) eqn:Sbi.
      * assert (pair_lt b i = true) by (apply pair_lt_true; now right).
        congruence.
      * destruct (String.ltb (snd i) (snd b)) eqn:Sib.
        -- now apply string_ltb_trans with (snd i).
        -- assert (snd b = snd i) by now apply string_ltb_connected.
           congruence.
Qed.

Lemma max_pair_in (items : list (Q * string)) :
  forall best, In (max_pair best items) (best :: items).
Proof.
  unfold max_pair. induction items as [|item rest IH]; intros best; simpl.
  - now left.
  - specialize (IH (if pair_lt best item then item else best)).
    destruct IH as [IH | IH].
    + rewrite <- IH. destruct (pair_lt best item); auto.
    + right. now right.
Qed.

Lemma max_pair_upper (items : list (Q * string)) :
  forall best y, In y (best :: items) -> pair_lt (max_pair best items) y = false.
Proof.
  unfold max_pair. induction items as [|item rest IH]; intros best y Hy.
  - simpl in *. destruct Hy as [<- | []].
    destruct (pair_lt best best) eqn:E; [|reflexivity].
    apply pair_lt_true in E. destruct E as [E | [_ E]].
    + exfalso. exact (Qlt_irrefl _ E).
    + rewrite string_ltb_irrefl in E. discriminate.
  - simpl. set (best' := if pair_lt best item then item else best).
    assert (Hb : pair_lt (fold_left
               (fun b it => if pair_lt b it then it else b) rest best') best' = false)
      by (apply IH; now left).
    destruct Hy as [<- | [<- | Hy]].
    + subst best'. destruct (pair_lt best item) eqn:E; [|exact Hb].
      match goal with |- pair_lt ?m _ = _ => destruct (pair_lt m best) eqn:F end;
        [|reflexivity].
      rewrite (pair_lt_trans _ _ _ F E) in Hb. discriminate.
    + subst best'. destruct (pair_lt best item) eqn:E; [exact Hb|].
      match goal with |- pair_lt ?m _ = _ => destruct (pair_lt m item) eqn:F end;
        [|reflexivity].
      rewrite (pair_lt_cotrans _ _ _ F E) in Hb. discriminate.
    + apply IH. now right.
Qed.

Lemma nlargest_one (items : list (Q * string)) :
  nlargest 1 items =
  match items with
  | [] => []
  | p :: rest => [max_pair p rest]
  end.
Proof. destruct items; reflexivity. Qed.

(** ** The selection loops *)

(** What the scan of [extractOne] returns: either the running best, which no
    choice beats, or a choice that beats the running best and everything
    before it, and that nothing after it beats. *)
Lemma extractOne_scan_spec (scorer : string -> string -> Q) (query : string)
    (choices : list string) :
  forall index best c s i,
    extractOne_scan scorer query choices index best = Some (c, s, i) ->
    (best = Some (c, s, i) /\
     forall y, In y choices -> (scorer query y <= s)%Q)
    \/
    (exists before after,
        choices = before ++ c :: after /\
        i = index + List.length before /\
        s = scorer query c /\
        (forall y, In y before -> (scorer query y < s)%Q) /\
        (forall y, In y after -> (scorer query y <= s)%Q) /\
        (forall c0 s0 i0, best = Some (c0, s0, i0) -> (s0 < s)%Q)).
Proof.
  induction choices as [|choice rest IH]; intros index best c s i H; simpl in H.
  - left. split; [assumption | intros y []].
  - apply IH in H.
    destruct H as [[Hb Hrest] | (before & after & Hsplit & Hi & Hs & Hbef & Haft & Hbest)].
    + destruct best as [[[c0 s0] i0]|].
      * destruct (Qlt_bool s0 (scorer query choice)) eqn:E.
        -- right. inversion Hb; subst. exists [], rest. simpl.
           repeat split; auto.
           ++ intros y [].
           ++ intros c1 s1 i1 Heq. inversion Heq; subst.
              now apply Qlt_bool_true.
        -- left. split; [assumption|]. inversion Hb; subst.
           intros y [<- | Hy]; [now apply Qlt_bool_false | auto].
      * right. inversion Hb; subst. exists [], rest. simpl.
        repeat split; auto.
        -- intros y [].
        -- intros c1 s1 i1 Heq. discriminate.
    + right. exists (choice :: before), after. subst rest. simpl.
      assert (Hc : (scorer query choice < s)%Q /\
                   forall c0 s0 i0, best = Some (c0, s0, i0) -> (s0 < s)%Q).
      { destruct best as [[[c0 s0] i0]|].
        - destruct (Qlt_bool s0 (scorer query choice)) eqn:E.
          + pose proof (Hbest _ _ _ eq_refl) as Hlt. split; [assumption|].
            intros c1 s1 i1 Heq. inversion Heq; subst.
            apply Qlt_bool_true in E. now apply Qlt_trans with (scorer query choice).
          + pose proof (Hbest _ _ _ eq_refl) as Hlt. apply Qlt_bool_false in E.
            split; [now apply Qle_lt_trans with s0|].
            intros c1 s1 i1 Heq. now inversion Heq; subst.
        - split; [exact (Hbest _ _ _ eq_refl) | discriminate]. }
      destruct Hc as [Hc Hb'].
      repeat split; auto.
      * lia.
      * intros y [<- | Hy]; auto.
Qed.

Lemma extractOne_scan_nonempty (scorer : string -> string -> Q) (query : string)
    (choices : list string) :
  forall index best,
    choices <> [] \/ best <> None ->
    extractOne_scan scorer query choices index best <> None.
Proof.
  induction choices as [|choice rest IH]; intros index best H; simpl.
  - destruct H; congruence.
  - apply IH. right.
    destruct best as [[[c0 s0] i0]|]; [destruct (Qlt_bool _ _)|]; discriminate.
Qed.

(** The result of a whole scan: the first choice that attains the greatest
    score. *)
Lemma extractOne_scan_first (scorer : string -> string -> Q) (query : string)
    (choices : list string) (c : string) (s : Q) (i : nat) :
  extractOne_scan scorer query choices 0 None = Some (c, s, i) ->
  exists before after,
    choices = before ++ c :: after /\
    i = List.length before /\
    s = scorer query c /\
    (forall y, In y before -> (scorer query y < s)%Q) /\
    (forall y, In y after -> (scorer query y <= s)%Q).
Proof.
  intros H. apply extractOne_scan_spec in H.
  destruct H as [[Hb _] | (before & after & H1 & H2 & H3 & H4 & H5 & _)];
    [discriminate|].
  exists before, after. auto.
Qed.

Lemma extractOne_run (query : string) (choices : list string)
    (scorer : string -> string -> Q) :
  extractOne query choices scorer =
  ([ExtractOne query choices], Return (extractOne_scan scorer query choices 0 None)).
Proof. reflexivity. Qed.

Section CloseMatches.

Variable ratio : string -> string -> Q.

Lemma close_enough_in (word : string) (possibilities : list string) (cutoff : Q)
    (r : Q) (x : string) :
  In (r, x) (close_enough ratio word possibilities cutoff) <->
  In x possibilities /\ r = ratio x word /\ Qle_bool cutoff r = true.
Proof.
  induction possibilities as [|y rest IH]; simpl.
  - tauto.
  - destruct (Qle_bool cutoff (ratio y word)) eqn:E; simpl; rewrite IH; split.
    + intros [H | H]; [inversion H; subst; auto | tauto].
    + intros ([<- | H] & -> & Hc); [now left | right; auto].
    + tauto.
    + intros ([<- | H] & -> & Hc); [congruence | auto].
Qed.


Lemma get_close_matches_run (word : string) (possibilities : list string)
    (cutoff : Q) :
  (0 <= cutoff <= 1)%Q ->
  get_close_matches ratio word possibilities 1 cutoff =
  ([GetCloseMatches word possibilities 1 cutoff],
   Return (match close_enough ratio word possibilities cutoff with
           | [] => []
           | p :: rest => [snd (max_pair p rest)]
           end)).
Proof.
  intros [H0 H1]. unfold get_close_matches.
  apply Qle_bool_iff in H0. apply Qle_bool_iff in H1.
  change (0 <? 1)%Z with true. rewrite H0, H1. simpl negb. cbv iota.
  change (Z.to_nat 1) with 1. rewrite nlargest_one.
  destruct (close_enough ratio word possibilities cutoff); reflexivity.
Qed.

End CloseMatches.

(** ** The shape of each run *)

Section Runs.

Variable partial_ratio : string -> string -> Q.
Variable ratio : string -> string -> Q.
Variable _RAPIDFUZZ : bool.

Lemma match_vendor_guard (name : string) (master : list string) (threshold : Q)
    (use_rapidfuzz : option bool) :
  name = "" \/ master = [] ->
  match_vendor partial_ratio ratio _RAPIDFUZZ name master threshold use_rapidfuzz
  = ([], Return "").
Proof.
  intros [-> | ->]; unfold match_vendor.
  - reflexivity.
  - destruct (is_empty name); reflexivity.
Qed.

Lemma match_vendor_primary (name : string) (master : list string) (threshold : Q)
    (use_rapidfuzz : option bool) :
  name <> "" -> master <> [] ->
  _RAPIDFUZZ = true -> use_rapidfuzz <> Some false ->
  match_vendor partial_ratio ratio _RAPIDFUZZ name master threshold use_rapidfuzz
  = ([ExtractOne name master],
     Return (match extractOne_scan partial_ratio name master 0 None with
             | Some (choice, score, _) =>
                 if Qle_bool threshold score then choice else ""
             | None => ""
             end)).
Proof.
  intros Hn Hm Hrf Hu. unfold match_vendor.
  apply is_empty_false in Hn. apply is_nil_false in Hm. rewrite Hn, Hm, Hrf.
  simpl orb. cbv iota.
  assert (Hflag : match use_rapidfuzz with
                  | None => true
                  | Some flag => flag
                  end && true = true).
  { destruct use_rapidfuzz as [[|]|]; try reflexivity. congruence. }
  rewrite Hflag. rewrite extractOne_run.
  destruct (extractOne_scan partial_ratio name master 0 None) as [[[c s] i]|];
    simpl; [destruct (Qle_bool threshold s)|]; reflexivity.
Qed.

Lemma match_vendor_degraded (name : string) (master : list string) (threshold : Q)
    (use_rapidfuzz : option bool) :
  name <> "" -> master <> [] ->
  _RAPIDFUZZ = false \/ use_rapidfuzz = Some false ->
  match_vendor partial_ratio ratio _RAPIDFUZZ name master threshold use_rapidfuzz
  = ([GetCloseMatches name master 1 (cutoff_of_threshold threshold)],
     Return (match close_enough ratio name master (cutoff_of_threshold threshold) with
             | [] => ""
             | p :: rest => snd (max_pair p rest)
             end)).
Proof.
  intros Hn Hm Hpath. unfold match_vendor.
  apply is_empty_false in Hn. apply is_nil_false in Hm. rewrite Hn, Hm.
  simpl orb. cbv iota.
  assert (Hflag : match use_rapidfuzz with
                  | None => _RAPIDFUZZ
                  | Some flag => flag
                  end && _RAPIDFUZZ = false).
  { destruct Hpath as [-> | ->]; [|reflexivity].
    destruct use_rapidfuzz as [[|]|]; reflexivity. }
  rewrite Hflag. cbv zeta.
  rewrite (get_close_matches_run ratio _ _ _ (cutoff_in_range threshold)).
  destruct (close_enough ratio name master (cutoff_of_threshold threshold));
    reflexivity.
Qed.

(** The two paths between them cover every call that passes the guard. *)
Lemma match_vendor_path (use_rapidfuzz : option bool) :
  (_RAPIDFUZZ = true /\ use_rapidfuzz <> Some false)
  \/ (_RAPIDFUZZ = false \/ use_rapidfuzz = Some false).
Proof.
  destruct _RAPIDFUZZ; [|now right; left].
  destruct use_rapidfuzz as [[|]|].
  - left. split; [reflexivity | discriminate].
  - right. now right.
  - left. split; [reflexivity | discriminate].
Qed.

Lemma guard_dec (name : string) (master : list string) :
  (name = "" \/ master = []) \/ (name <> "" /\ master <> []).
Proof.
  destruct name; [now left; left|]. destruct master; [now left; right|].
  right. split; discriminate.
Qed.

Variable gpt_available : bool.
Variable client : string -> list string -> completion.
Variable threshold : Q.
Variable master : list string.

Lemma gpt_match_run (name : string) :
  gpt_match client master name =
  ([ChatCompletion name master],
   Return (match client name master with
           | Responded (Some content :: _) =>
               if py_in (strip content) master then strip content else ""
           | _ => ""
           end)).
Proof.
  unfold gpt_match, chat_completions_create.
  destruct (client name master) as [e | [|[content|] rest]]; simpl;
    try reflexivity.
  destruct (py_in (strip content) master); reflexivity.
Qed.

Lemma fuzzy_matching_run (title : string) :
  fuzzy_matching partial_ratio _RAPIDFUZZ threshold master title =
  if _RAPIDFUZZ
  then ([ExtractOne title master],
        Return (match extractOne_scan partial_ratio title master 0 None with
                | Some (choice, score, _) =>
                    if Qle_bool threshold score then choice else ""
                | None => ""
                end))
  else ([], Return "").
Proof.
  unfold fuzzy_matching. destruct _RAPIDFUZZ; [|reflexivity].
  rewrite extractOne_run.
  destruct (extractOne_scan partial_ratio title master 0 None) as [[[c s] i]|];
    simpl; [destruct (Qle_bool threshold s)|]; reflexivity.
Qed.

Lemma sheet_vendor_run (title : string) :
  sheet_vendor partial_ratio _RAPIDFUZZ gpt_available client threshold master title
  = (trace (fuzzy_matching partial_ratio _RAPIDFUZZ threshold master title)
     ++ (if is_empty (value (fuzzy_matching partial_ratio _RAPIDFUZZ threshold master title))
            && gpt_available
         then [ChatCompletion title master] else []),
     Return (if is_empty (value (fuzzy_matching partial_ratio _RAPIDFUZZ threshold master title))
                && gpt_available
             then value (gpt_match client master title)
             else value (fuzzy_matching partial_ratio _RAPIDFUZZ threshold master title))).
Proof.
  unfold sheet_vendor. rewrite fuzzy_matching_run.
  destruct _RAPIDFUZZ.
  - set (v := match extractOne_scan partial_ratio title master 0 None with
              | Some (choice, score, _) =>
                  if Qle_bool threshold score then choice else ""
              | None => ""
              end).
    unfold bind, value, result, trace; simpl.
    destruct (is_empty v && gpt_available) eqn:E.
    + rewrite gpt_match_run. reflexivity.
    + reflexivity.
  - unfold bind, value, result, trace; simpl.
    destruct gpt_available; simpl.
    + rewrite gpt_match_run. reflexivity.
    + reflexivity.
Qed.

(** A scan only ever returns one of the choices. *)
Lemma accepted_choice_in (query : string) (choices : list string) (t : Q) :
  let v := match extractOne_scan partial_ratio query choices 0 None with
           | Some (choice, score, _) => if Qle_bool t score then choice else ""
           | None => ""
           end in
  v = "" \/ In v choices.
Proof.
  cbv zeta.
  destruct (extractOne_scan partial_ratio query choices 0 None) as [[[c s] i]|] eqn:E;
    [|now left].
  destruct (Qle_bool t s); [|now left].
  apply extractOne_scan_first in E. destruct E as (before & after & -> & _).
  right. apply in_or_app. right. now left.
Qed.

Lemma close_choice_in (word : string) (possibilities : list string) (cutoff : Q) :
  let v := match close_enough ratio word possibilities cutoff with
           | [] => ""
           | p :: rest => snd (max_pair p rest)
           end in
  v = "" \/ (In v possibilities /\ Qle_bool cutoff (ratio v word) = true).
Proof.
  cbv zeta.
  destruct (close_enough ratio word possibilities cutoff) as [|p rest] eqn:E;
    [now left|].
  right. pose proof (max_pair_in rest p) as Hin. rewrite <- E in Hin.
  destruct (max_pair p rest) as [r x]. simpl.
  apply close_enough_in in Hin. destruct Hin as (Hx & -> & Hc). auto.
Qed.

Lemma gpt_value_in (name : string) :
  value (gpt_match client master name) = ""
  \/ In (value (gpt_match client master name)) master.
Proof.
  rewrite gpt_match_run. unfold value, result; simpl.
  destruct (client name master) as [e | [|[content|] rest]]; try now left.
  destruct (py_in (strip content) master) eqn:E; [|now left].
  right. now apply py_in_true.
Qed.

End Runs.

(** ** Results of matching *)

(** C1.  Whatever the query, the candidate list, the threshold, the scorers,
    the availability of RapidFuzz and the behaviour of the oracle, each of
    the three matching operations ([match_vendor], the oracle step
    [gpt_match], and the per-sheet fuzzy-then-oracle decision) returns
    normally, and what it returns is the empty string or an element of the
    candidate list. *)
Theorem match_result_is_candidate_or_empty :
  forall (partial_ratio ratio : string -> string -> Q)
         (_RAPIDFUZZ gpt_available : bool)
         (client : string -> list string -> completion)
         (query : string) (candidates : list string) (threshold : Q)
         (use_rapidfuzz : option bool),
    (exists v,
        result (match_vendor partial_ratio ratio _RAPIDFUZZ
                  query candidates threshold use_rapidfuzz) = Return v
        /\ (v = "" \/ In v candidates))
    /\ (exists v,
           result (gpt_match client candidates query) = Return v
           /\ (v = "" \/ In v candidates))
    /\ (exists v,
           result (sheet_vendor partial_ratio _RAPIDFUZZ gpt_available client
                     threshold candidates query) = Return v
           /\ (v = "" \/ In v candidates)).
Proof.
  intros pr r rf gpt client query candidates threshold use.
  split; [|split].
  - destruct (guard_dec query candidates) as [Hg | [Hn Hm]].
    + rewrite (match_vendor_guard pr r rf _ _ threshold use Hg).
      exists "". split; [reflexivity | now left].
    + destruct (match_vendor_path rf use) as [[Hrf Hu] | Hd].
      * rewrite (match_vendor_primary pr r rf _ _ threshold use Hn Hm Hrf Hu).
        eexists. split; [reflexivity|]. apply accepted_choice_in.
      * rewrite (match_vendor_degraded pr r rf _ _ threshold use Hn Hm Hd).
        eexists. split; [reflexivity|].
        destruct (close_choice_in r query candidates (cutoff_of_threshold threshold))
          as [H | [H _]]; auto.
  - pose proof (gpt_value_in client candidates query) as H.
    rewrite gpt_match_run in *. eexists. split; [reflexivity | exact H].
  - rewrite sheet_vendor_run. eexists. split; [reflexivity|].
    destruct (is_empty _ && gpt) eqn:E.
    + apply gpt_value_in.
    + rewrite fuzzy_matching_run. destruct rf; [|now left].
      apply accepted_choice_in.
Qed.

(** C5.  For every threshold and every configuration of [match_vendor]
    (scorers, RapidFuzz availability and the [use_rapidfuzz] flag; the
    function takes no oracle), an empty candidate list gives [""] for every
    query and an empty query gives [""] for every candidate list, and in both
    cases the trace of library calls is empty: no scoring is attempted. *)
Theorem match_vendor_empty_inputs :
  forall (partial_ratio ratio : string -> string -> Q) (_RAPIDFUZZ : bool)
         (threshold : Q) (use_rapidfuzz : option bool),
    (forall query,
        match_vendor partial_ratio ratio _RAPIDFUZZ query [] threshold use_rapidfuzz
        = ([], Return ""))
    /\ (forall candidates,
           match_vendor partial_ratio ratio _RAPIDFUZZ "" candidates threshold
             use_rapidfuzz
           = ([], Return "")).
Proof.
  intros pr r rf threshold use. split.
  - intros query. apply match_vendor_guard. now right.
  - intros candidates. apply match_vendor_guard. now left.
Qed.


(** C7.  In the per-sheet decision the trace of external calls is the
    deterministic step (one [extractOne] call when RapidFuzz is there, none
    otherwise) followed by at most one oracle call; the oracle is called
    exactly when the deterministic step produced no vendor and an oracle is
    configured; when the deterministic step accepts a vendor that vendor is
    the result and the oracle is not called (a vendor is accepted when its
    score reaches the threshold; the master list holds no empty string).  No
    call is repeated and the difflib scorer is never run. *)
Theorem oracle_only_after_failed_fuzzy_step :
  forall (partial_ratio : string -> string -> Q)
         (_RAPIDFUZZ gpt_available : bool)
         (client : string -> list string -> completion)
         (threshold : Q) (master : list string) (title : string),
    let step := fuzzy_matching partial_ratio _RAPIDFUZZ threshold master title in
    let run := sheet_vendor partial_ratio _RAPIDFUZZ gpt_available client
                 threshold master title in
    trace step = (if _RAPIDFUZZ then [ExtractOne title master] else [])
    /\ trace run
       = trace step
         ++ (if is_empty (value step) && gpt_available
             then [ChatCompletion title master] else [])
    /\ ((exists name candidates, In (ChatCompletion name candidates) (trace run))
        <-> (value step = "" /\ gpt_available = true))
    /\ (value step <> "" ->
        value run = value step
        /\ forall name candidates, ~ In (ChatCompletion name candidates) (trace run))
    /\ (~ In "" master ->
        forall c s i,
          _RAPIDFUZZ = true ->
          extractOne_scan partial_ratio title master 0 None = Some (c, s, i) ->
          (threshold <= s)%Q ->
          value run = c
          /\ forall name candidates, ~ In (ChatCompletion name candidates) (trace run))
    /\ (forall word possibilities n cutoff,
           ~ In (GetCloseMatches word possibilities n cutoff) (trace run)).
Proof.
  intros pr rf gpt client threshold master title step run.
  assert (Hstep : trace step = if rf then [ExtractOne title master] else []).
  { subst step. rewrite fuzzy_matching_run. destruct rf; reflexivity. }
  assert (Hrun : trace run
                 = trace step ++ (if is_empty (value step) && gpt
                                  then [ChatCompletion title master] else [])).
  { subst run step. rewrite sheet_vendor_run. reflexivity. }
  assert (Hval : value run = if is_empty (value step) && gpt
                             then value (gpt_match client master title)
                             else value step).
  { subst run step. rewrite sheet_vendor_run. reflexivity. }
  split; [exact Hstep|]. split; [exact Hrun|].
  assert (Hno : forall name candidates,
             In (ChatCompletion name candidates) (trace step) -> False).
  { intros name candidates. rewrite Hstep.
    destruct rf; simpl; [intros [H | []]; discriminate | tauto]. }
  assert (Hacc : value step <> "" ->
                 value run = value step
                 /\ forall name candidates,
                     ~ In (ChatCompletion name candidates) (trace run)).
  { intros Hv. apply is_empty_false in Hv.
    rewrite Hval, Hrun, Hv. simpl. split; [reflexivity|].
    intros name candidates Hin. rewrite app_nil_r in Hin. now apply Hno in Hin. }
  split; [|split; [exact Hacc|split]].
  - rewrite Hrun. split.
    + intros (name & candidates & Hin). apply in_app_or in Hin.
      destruct Hin as [Hin | Hin]; [now apply Hno in Hin|].
      destruct (is_empty (value step) && gpt) eqn:E; [|destruct Hin].
      apply andb_true_iff in E. destruct E as [E1 E2].
      apply is_empty_true in E1. auto.
    + intros [Hv Hg]. exists title, master. apply in_or_app. right.
      apply is_empty_true in Hv. rewrite Hv, Hg. now left.
  - intros Hne c s i Hrf Hscan Hle.
    assert (Hc : value step = c).
    { subst step. rewrite fuzzy_matching_run, Hrf, Hscan.
      apply Qle_bool_iff in Hle. unfold value, result; simpl. now rewrite Hle. }
    assert (Hin : In c master).
    { apply extractOne_scan_first in Hscan.
      destruct Hscan as (before & after & -> & _).
      apply in_or_app. right. now left. }
    rewrite <- Hc. apply Hacc. rewrite Hc. intros ->. contradiction.
  - intros word possibilities n cutoff. rewrite Hrun, Hstep. intros Hin.
    apply in_app_or in Hin. destruct Hin as [Hin | Hin].
    + destruct rf; simpl in Hin; [destruct Hin as [H | []]; discriminate | tauto].
    + destruct (is_empty (value step) && gpt); simpl in Hin;
        [destruct Hin as [H | []]; discriminate | tauto].
Qed.

(** ** Stripping the oracle's answer *)

Lemma lstrip_all_space (s : string) : all_space s = true -> lstrip s = "".
Proof.
  induction s as [|c s IH]; simpl; [reflexivity|].
  intros H. apply andb_true_iff in H. destruct H as [Hc Hs].
  rewrite Hc. auto.
Qed.

Lemma rstrip_all_space (s : string) : all_space s = true -> rstrip s = "".
Proof.
  induction s as [|c s IH]; simpl; [reflexivity|].
  intros H. apply andb_true_iff in H. destruct H as [Hc Hs].
  rewrite (IH Hs), Hc. reflexivity.
Qed.

Lemma lstrip_space_prefix (l s : string) :
  all_space l = true -> lstrip (l ++ s)%string = lstrip s.
Proof.
  induction l as [|c l IH]; simpl; [reflexivity|].
  intros H. apply andb_true_iff in H. destruct H as [Hc Hl].
  rewrite Hc. auto.
Qed.

Lemma rstrip_space_suffix (s r : string) :
  all_space r = true -> rstrip (s ++ r)%string = rstrip s.
Proof.
  intros Hr. induction s as [|c s IH]; simpl.
  - now apply rstrip_all_space.
  - now rewrite IH.
Qed.

Lemma lstrip_keeps_suffix (s r : string) :
  all_space s = false -> lstrip (s ++ r)%string = (lstrip s ++ r)%string.
Proof.
  induction s as [|c s IH]; simpl; [discriminate|].
  destruct (isspace c); simpl; [exact IH | reflexivity].
Qed.

(** Whitespace around a string does not change what [strip] makes of it. *)
Lemma strip_surrounded (l e r : string) :
  all_space l = true -> all_space r = true -> strip (l ++ e ++ r)%string = strip e.
Proof.
  intros Hl Hr. unfold strip. rewrite (lstrip_space_prefix l _ Hl).
  destruct (all_space e) eqn:He.
  - rewrite (lstrip_space_prefix e r He), (lstrip_all_space r Hr),
      (lstrip_all_space e He). reflexivity.
  - rewrite (lstrip_keeps_suffix e r He). now apply rstrip_space_suffix.
Qed.

(** C2, as the code has it.  The oracle step always returns normally, and
    what it returns is [""] or an entry of the candidate list.  It returns
    [""] when the call raises, when the answer has no choice or no text, and
    when the text, once stripped of leading and trailing whitespace, is not
    exactly an entry of the list. *)
Theorem gpt_match_validates_stripped_answer :
  forall (client : string -> list string -> completion)
         (master : list string) (name : string),
    (exists v,
        result (gpt_match client master name) = Return v
        /\ (v = "" \/ In v master))
    /\ (forall e, client name master = Failed e ->
                  value (gpt_match client master name) = "")
    /\ (client name master = Responded [] ->
        value (gpt_match client master name) = "")
    /\ (forall rest, client name master = Responded (None :: rest) ->
                     value (gpt_match client master name) = "")
    /\ (forall content rest,
           client name master = Responded (Some content :: rest) ->
           ~ In (strip content) master ->
           value (gpt_match client master name) = "").
Proof.
  intros client master name.
  pose proof (gpt_value_in client master name) as Hin.
  rewrite gpt_match_run in *. unfold value, result in *; simpl in *.
  split; [eexists; split; [reflexivity | exact Hin]|].
  repeat split.
  - intros e ->. reflexivity.
  - intros ->. reflexivity.
  - intros rest ->. reflexivity.
  - intros content rest -> Hnot. apply py_in_false in Hnot. now rewrite Hnot.
Qed.

(** C10, as the code has it.  An answer that is an entry [e] of the candidate
    list with whitespace around it makes the oracle step return [e], provided
    [e] itself neither starts nor ends with whitespace. *)
Theorem gpt_match_strips_answer :
  forall (client : string -> list string -> completion)
         (master : list string) (name e l r : string)
         (rest : list (option string)),
    In e master ->
    strip e = e ->
    all_space l = true ->
    all_space r = true ->
    client name master = Responded (Some (l ++ e ++ r)%string :: rest) ->
    gpt_match client master name = ([ChatCompletion name master], Return e).
Proof.
  intros client master name e l r rest Hin He Hl Hr Hc.
  rewrite gpt_match_run, Hc, (strip_surrounded l e r Hl Hr), He.
  apply py_in_true in Hin. now rewrite Hin.
Qed.

(** ** The vendor master list *)

Lemma dropna_in (column : list (option string)) (v : string) :
  In v (dropna column) <-> In (Some v) column.
Proof.
  induction column as [|[w|] rest IH]; simpl.
  - tauto.
  - rewrite IH. split; intros [H | H]; auto; left; congruence.
  - rewrite IH. split; [auto | intros [H | H]; [discriminate | auto]].
Qed.

Lemma unique_from_in (values : list string) :
  forall seen v, In v (unique_from seen values) <-> In v values /\ ~ In v seen.
Proof.
  induction values as [|x rest IH]; intros seen v; simpl.
  - tauto.
  - destruct (py_in x seen) eqn:E.
    + apply py_in_true in E. rewrite IH. split.
      * tauto.
      * intros [[<- | H] Hn]; [contradiction | auto].
    + apply py_in_false in E. simpl. rewrite IH. simpl. split.
      * intros [<- | [H Hn]]; [auto | tauto].
      * intros [[<- | H] Hn]; [now left|].
        destruct (string_dec x v) as [<- | Hne]; [now left | right; tauto].
Qed.

Lemma unique_from_nodup (values : list string) :
  forall seen, NoDup (unique_from seen values).
Proof.
  induction values as [|x rest IH]; intros seen; simpl.
  - constructor.
  - destruct (py_in x seen); [apply IH|].
    constructor; [|apply IH].
    rewrite unique_from_in. simpl. tauto.
Qed.

Lemma first_index_head (x y : string) (l : list string) :
  x <> y -> first_index x (y :: l) = S (first_index x l).
Proof.
  intros H. simpl. apply String.eqb_neq in H. now rewrite H.
Qed.

Lemma unique_from_order (values : list string) :
  forall seen v w,
    In v (unique_from seen values) -> In w (unique_from seen values) ->
    (first_index v (unique_from seen values) < first_index w (unique_from seen values)
     <-> first_index v values < first_index w values).
Proof.
  induction values as [|x rest IH]; intros seen v w Hv Hw.
  - destruct Hv.
  - simpl unique_from in *. destruct (py_in x seen) eqn:E.
    + apply py_in_true in E.
      assert (v <> x).
      { intros ->. apply unique_from_in in Hv. tauto. }
      assert (w <> x).
      { intros ->. apply unique_from_in in Hw. tauto. }
      rewrite !first_index_head by assumption.
      pose proof (IH seen v w Hv Hw). lia.
    + destruct (string_dec v x) as [-> | Hvx], (string_dec w x) as [-> | Hwx].
      * simpl. rewrite String.eqb_refl. lia.
      * rewrite (first_index_head w x) by assumption.
        rewrite (first_index_head w x) by assumption.
        simpl. rewrite String.eqb_refl. lia.
      * rewrite (first_index_head v x) by assumption.
        rewrite (first_index_head v x) by assumption.
        simpl. rewrite String.eqb_refl. lia.
      * rewrite !first_index_head by assumption.
        destruct Hv as [Hv | Hv]; [congruence|].
        destruct Hw as [Hw | Hw]; [congruence|].
        pose proof (IH (x :: seen) v w Hv Hw). lia.
Qed.

(** C9, as the code has it.  The master list built from the single-column
    upload holds no value twice, holds exactly the values of the cells that
    are not missing (a blank string is such a value and stays), and lists
    them in the order of their first appearance. *)
Theorem vendor_master_first_seen_dedup :
  forall (df_vendors : list (list (option string))) (master : list string),
    vendor_master df_vendors = Some master ->
    exists column,
      df_vendors = [column]
      /\ NoDup master
      /\ (forall v, In v master <-> In (Some v) column)
      /\ (forall v w,
             In v master -> In w master ->
             (first_index v master < first_index w master
              <-> first_index v (dropna column) < first_index w (dropna column))).
Proof.
  intros df master H. unfold vendor_master in H.
  destruct df as [|column [|? ?]]; try discriminate.
  inversion H; subst master; clear H.
  exists column. split; [reflexivity|]. split; [|split].
  - apply unique_from_nodup.
  - intros v. unfold unique. rewrite unique_from_in, dropna_in. simpl. tauto.
  - intros v w. apply unique_from_order.
Qed.

(** ** Thresholds *)


(** C4.  Threshold monotonicity: when [match_vendor] finds a vendor at
    threshold [t1], it finds one at every lower threshold [t2], the scorers
    being the same.  On the degraded path this uses that difflib never scores
    the empty candidate above another one (its ratio against a non-empty
    query is 0, the least ratio). *)
Theorem threshold_monotonicity :
  forall (partial_ratio ratio : string -> string -> Q) (_RAPIDFUZZ : bool)
         (q : string) (cand : list string) (t1 t2 : Q)
         (use_rapidfuzz : option bool),
    (forall y, In y cand -> (ratio "" q <= ratio y q)%Q) ->
    (t2 < t1)%Q ->
    value (match_vendor partial_ratio ratio _RAPIDFUZZ q cand t1 use_rapidfuzz) <> "" ->
    value (match_vendor partial_ratio ratio _RAPIDFUZZ q cand t2 use_rapidfuzz) <> "".
Proof.
  intros pr r rf q cand t1 t2 use Hempty Hlt.
  destruct (guard_dec q cand) as [Hg | [Hn Hm]].
  { rewrite (match_vendor_guard pr r rf _ _ t1 use Hg). intros H. now elim H. }
  destruct (match_vendor_path rf use) as [[Hrf Hu] | Hd].
  - rewrite (match_vendor_primary pr r rf _ _ t1 use Hn Hm Hrf Hu),
      (match_vendor_primary pr r rf _ _ t2 use Hn Hm Hrf Hu).
    unfold value, result; simpl.
    destruct (extractOne_scan pr q cand 0 None) as [[[c s] i]|]; [|tauto].
    destruct (Qle_bool t1 s) eqn:E1; [|tauto].
    apply Qle_bool_iff in E1.
    assert (E2 : Qle_bool t2 s = true).
    { apply Qle_bool_iff. apply Qlt_le_weak. now apply Qlt_le_trans with t1. }
    now rewrite E2.
  - rewrite (match_vendor_degraded pr r rf _ _ t1 use Hn Hm Hd),
      (match_vendor_degraded pr r rf _ _ t2 use Hn Hm Hd).
    unfold value, result; simpl.
    set (c1 := cutoff_of_threshold t1). set (c2 := cutoff_of_threshold t2).
    assert (Hc : (c2 <= c1)%Q) by (apply cutoff_monotone; now apply Qlt_le_weak).
    destruct (close_enough r q cand c1) as [|p1 rest1] eqn:E1; [tauto|].
    intros Hv1.
    pose proof (max_pair_in rest1 p1) as Hin1. rewrite <- E1 in Hin1.
    destruct (max_pair p1 rest1) as [r1 v1]. simpl in Hv1.
    apply close_enough_in in Hin1. destruct Hin1 as (Hv1in & -> & Hpass1).
    assert (Hin2 : In (r v1 q, v1) (close_enough r q cand c2)).
    { apply close_enough_in. repeat split; auto.
      apply Qle_bool_iff. apply Qle_bool_iff in Hpass1.
      now apply Qle_trans with c1. }
    destruct (close_enough r q cand c2) as [|p2 rest2] eqn:E2; [destruct Hin2|].
    pose proof (max_pair_upper rest2 p2 _ Hin2) as Hup.
    pose proof (max_pair_in rest2 p2) as Hm2. rewrite <- E2 in Hm2.
    destruct (max_pair p2 rest2) as [r2 v2]. simpl.
    apply close_enough_in in Hm2. destruct Hm2 as (Hv2in & -> & _).
    intros ->.
    assert (Hcontra : pair_lt (r "" q, "") (r v1 q, v1) = true).
    { apply pair_lt_true. simpl.
      destruct (Qlt_le_dec (r "" q) (r v1 q)) as [Hl | Hg]; [now left|].
      right. split.
      - apply Qle_antisym; [now apply Hempty | assumption].
      - now apply string_ltb_empty. }
    congruence.
Qed.

(** ** A candidate as its own query *)



(** ** Concrete runs *)

(** The repository's tests ([tests/test_match.py]), on the primary path. *)
Example test_match_with_exact_name :
  match_vendor Reference.partial_ratio Reference.ratio true
    "Acme Corp" ["Acme Corp"; "Beta LLC"; "Gamma Inc"] 80%Q None
  = ([ExtractOne "Acme Corp" ["Acme Corp"; "Beta LLC"; "Gamma Inc"]],
     Return "Acme Corp").
Proof. vm_compute. reflexivity. Qed.

Example test_match_partial_name :
  value (match_vendor Reference.partial_ratio Reference.ratio true
           "Acme Corp" ["Acme Corporation"; "Beta LLC"; "Gamma Inc"] 60%Q None)
  = "Acme Corporation".
Proof. vm_compute. reflexivity. Qed.

Example test_no_match_low_threshold :
  value (match_vendor Reference.partial_ratio Reference.ratio true
           "Zeta" ["Alpha"; "Beta"] 95%Q None)
  = "".
Proof. vm_compute. reflexivity. Qed.

Example test_empty_master :
  value (match_vendor Reference.partial_ratio Reference.ratio true
           "Any" [] 80%Q None)
  = "".
Proof. vm_compute. reflexivity. Qed.

(** The same tests where RapidFuzz is not installed. *)
Example test_match_with_exact_name_difflib :
  value (match_vendor Reference.partial_ratio Reference.ratio false
           "Acme Corp" ["Acme Corp"; "Beta LLC"; "Gamma Inc"] 80%Q None)
  = "Acme Corp".
Proof. vm_compute. reflexivity. Qed.

Example test_match_partial_name_difflib :
  value (match_vendor Reference.partial_ratio Reference.ratio false
           "Acme Corp" ["Acme Corporation"; "Beta LLC"; "Gamma Inc"] 60%Q None)
  = "Acme Corporation".
Proof. vm_compute. reflexivity. Qed.

Example test_no_match_low_threshold_difflib :
  value (match_vendor Reference.partial_ratio Reference.ratio false
           "Zeta" ["Alpha"; "Beta"] 95%Q None)
  = "".
Proof. vm_compute. reflexivity. Qed.

(** A sheet whose name matches nothing goes to the oracle, once. *)
Example sheet_vendor_oracle_fallback :
  sheet_vendor Reference.partial_ratio true true
    (fun _ _ => Responded [Some "Gamma Inc "]) 95%Q
    ["Alpha"; "Gamma Inc"] "Zeta"
  = ([ExtractOne "Zeta" ["Alpha"; "Gamma Inc"];
      ChatCompletion "Zeta" ["Alpha"; "Gamma Inc"]],
     Return "Gamma Inc").
Proof. vm_compute. reflexivity. Qed.

(** *** C2: an answer that is not an entry, yet accepted after stripping *)

Lemma gpt_match_accepts_padded_answer :
  ~ In " Acme Corp" ["Acme Corp"; "Beta LLC"]
  /\ gpt_match (fun _ _ => Responded [Some " Acme Corp"])
       ["Acme Corp"; "Beta LLC"] "Acme"
     = ([ChatCompletion "Acme" ["Acme Corp"; "Beta LLC"]], Return "Acme Corp").
Proof.
  split.
  - intros [H | [H | []]]; discriminate.
  - vm_compute. reflexivity.
Qed.

(** *** C3: an earlier candidate that contains the query wins the tie *)



(** *** C4: a match at threshold 60 is still a match at threshold 50 *)

Lemma threshold_monotonicity_difflib_run :
  (50 < 60)%Q
  /\ value (match_vendor Reference.partial_ratio Reference.ratio false
              "Acme Corp" ["Acme Corporation"; "Beta LLC"] 50%Q None) <> "".
Proof.
  split; [reflexivity|].
  apply (threshold_monotonicity Reference.partial_ratio Reference.ratio false
           "Acme Corp" ["Acme Corporation"; "Beta LLC"] 60%Q 50%Q None).
  - intros y [<- | [<- | []]]; vm_compute; discriminate.
  - reflexivity.
  - vm_compute. discriminate.
Defined.

(** *** C6: the cutoff at threshold 60 *)


(** *** C9: a blank cell value stays in the master list *)

Lemma vendor_master_keeps_blank_entry :
  vendor_master [[Some "Acme"; None; Some " "; Some "Acme"]] = Some ["Acme"; " "]
  /\ In " " ["Acme"; " "]
  /\ is_blank " " = true.
Proof.
  split; [reflexivity|]. split; [simpl; auto | reflexivity].
Qed.

Lemma vendor_master_of_sample_column :
  exists column,
    [[Some "Beta"; None; Some "Acme"; Some "Beta"]] = [column]
    /\ NoDup ["Beta"; "Acme"]
    /\ (forall v, In v ["Beta"; "Acme"] <-> In (Some v) column)
    /\ (forall v w,
           In v ["Beta"; "Acme"] -> In w ["Beta"; "Acme"] ->
           (first_index v ["Beta"; "Acme"] < first_index w ["Beta"; "Acme"]
            <-> first_index v (dropna column) < first_index w (dropna column))).
Proof.
  apply (vendor_master_first_seen_dedup
           [[Some "Beta"; None; Some "Acme"; Some "Beta"]] ["Beta"; "Acme"]).
  reflexivity.
Defined.

(** *** C10: stripping helps only when the entry itself is stripped *)

Lemma gpt_match_rejects_answer_for_padded_entry :
  In "Acme " ["Acme "]
  /\ (" Acme " = " " ++ "Acme " ++ "")%string
  /\ all_space " " = true
  /\ all_space "" = true
  /\ gpt_match (fun _ _ => Responded [Some " Acme "]) ["Acme "] "Acme"
     = ([ChatCompletion "Acme" ["Acme "]], Return "").
Proof.
  split; [simpl; auto|]. repeat split; vm_compute; reflexivity.
Qed.

Lemma gpt_match_strips_padded_answer :
  In "Acme" ["Acme"; "Beta LLC"]
  /\ gpt_match (fun _ _ => Responded [Some "  Acme "]) ["Acme"; "Beta LLC"] "acme-2024"
     = ([ChatCompletion "acme-2024" ["Acme"; "Beta LLC"]], Return "Acme").
Proof.
  split; [simpl; auto|].
  apply (gpt_match_strips_answer (fun _ _ => Responded [Some "  Acme "])
           ["Acme"; "Beta LLC"] "acme-2024" "Acme" "  " " " []).
  - simpl; auto.
  - reflexivity.
  - reflexivity.
  - reflexivity.
  - reflexivity.
Defined.

(** * Further properties of the matching code *)




(** X1.  On the primary path [match_vendor] returns [""] when every candidate
    scores below the threshold; otherwise it returns the first candidate, in
    list order, that attains the greatest score, and that score reaches the
    threshold. *)
Theorem match_vendor_primary_selects_first_best :
  forall (partial_ratio ratio : string -> string -> Q)
         (name : string) (master : list string) (threshold : Q)
         (use_rapidfuzz : option bool),
    name <> "" ->
    master <> [] ->
    use_rapidfuzz <> Some false ->
    ((forall y, In y master -> (partial_ratio name y < threshold)%Q) ->
     value (match_vendor partial_ratio ratio true name master threshold use_rapidfuzz)
     = "")
    /\ ((exists y, In y master /\ (threshold <= partial_ratio name y)%Q) ->
        exists before after,
          master
          = before
            ++ value (match_vendor partial_ratio ratio true
                        name master threshold use_rapidfuzz) :: after
          /\ (threshold
              <= partial_ratio name
                   (value (match_vendor partial_ratio ratio true
                             name master threshold use_rapidfuzz)))%Q
          /\ (forall y, In y before ->
                (partial_ratio name y
                 < partial_ratio name
                     (value (match_vendor partial_ratio ratio true
                               name master threshold use_rapidfuzz)))%Q)
          /\ (forall y, In y after ->
                (partial_ratio name y
                 <= partial_ratio name
                      (value (match_vendor partial_ratio ratio true
                                name master threshold use_rapidfuzz)))%Q)).
Proof.
  intros pr r name master threshold use Hn Hm Hu.
  rewrite (match_vendor_primary pr r true _ _ threshold use Hn Hm eq_refl Hu).
  unfold value, result; simpl.
  destruct (extractOne_scan pr name master 0 None) as [[[x s] i]|] eqn:E.
  2:{ exfalso. revert E. apply extractOne_scan_nonempty. now left. }
  apply extractOne_scan_first in E.
  destruct E as (before & after & Hsplit & _ & -> & Hbef & Haft).
  assert (Hx : In x master).
  { rewrite Hsplit. apply in_or_app. right. now left. }
  split.
  - intros Hall. destruct (Qle_bool threshold (pr name x)) eqn:Et; [|reflexivity].
    apply Qle_bool_iff in Et. exfalso. exact (Qlt_not_le _ _ (Hall _ Hx) Et).
  - intros (y & Hy & Hty).
    assert (Hyx : (pr name y <= pr name x)%Q).
    { rewrite Hsplit in Hy. apply in_app_or in Hy.
      destruct Hy as [H | [<- | H]].
      - apply Qlt_le_weak. now apply Hbef.
      - apply Qle_refl.
      - now apply Haft. }
    assert (Et : Qle_bool threshold (pr name x) = true).
    { apply Qle_bool_iff. now apply Qle_trans with (pr name y). }
    rewrite Et. exists before, after. repeat split; auto.
    now apply Qle_bool_iff.
Qed.

(** X2.  On the degraded path, when some candidate reaches the cutoff,
    [match_vendor] returns a candidate that reaches it and has the greatest
    ratio among those that do; of several with that ratio it is the one
    greatest in string order, not the first in the list. *)
Theorem match_vendor_degraded_selects_greatest :
  forall (partial_ratio ratio : string -> string -> Q) (_RAPIDFUZZ : bool)
         (name : string) (master : list string) (threshold : Q)
         (use_rapidfuzz : option bool),
    name <> "" ->
    _RAPIDFUZZ = false \/ use_rapidfuzz = Some false ->
    (exists y, In y master /\ (cutoff_of_threshold threshold <= ratio y name)%Q) ->
    In (value (match_vendor partial_ratio ratio _RAPIDFUZZ
                 name master threshold use_rapidfuzz)) master
    /\ (cutoff_of_threshold threshold
        <= ratio (value (match_vendor partial_ratio ratio _RAPIDFUZZ
                           name master threshold use_rapidfuzz)) name)%Q
    /\ (forall y,
           In y master ->
           (cutoff_of_threshold threshold <= ratio y name)%Q ->
           (ratio y name
            <= ratio (value (match_vendor partial_ratio ratio _RAPIDFUZZ
                               name master threshold use_rapidfuzz)) name)%Q
           /\ ((ratio y name
                == ratio (value (match_vendor partial_ratio ratio _RAPIDFUZZ
                                   name master threshold use_rapidfuzz)) name)%Q ->
               String.ltb
                 (value (match_vendor partial_ratio ratio _RAPIDFUZZ
                           name master threshold use_rapidfuzz)) y = false)).
Proof.
  intros pr r rf name master threshold use Hn Hd (y0 & Hy0 & Hc0).
  assert (Hm : master <> []) by (intros ->; destruct Hy0).
  rewrite (match_vendor_degraded pr r rf _ _ threshold use Hn Hm Hd).
  unfold value, result; simpl.
  set (cutoff := cutoff_of_threshold threshold) in *.
  assert (Hin0 : In (r y0 name, y0) (close_enough r name master cutoff)).
  { apply close_enough_in. repeat split; auto. now apply Qle_bool_iff. }
  destruct (close_enough r name master cutoff) as [|p rest] eqn:E; [destruct Hin0|].
  pose proof (max_pair_in rest p) as Hmax. rewrite <- E in Hmax.
  assert (Hup : forall q, In q (p :: rest) -> pair_lt (max_pair p rest) q = false)
    by (intros q; apply max_pair_upper).
  rewrite <- E in Hup.
  destruct (max_pair p rest) as [rv v]. simpl.
  apply close_enough_in in Hmax. destruct Hmax as (Hv & -> & Hcv).
  split; [assumption|]. split; [now apply Qle_bool_iff|].
  intros y Hy Hcy.
  assert (Hiny : In (r y name, y) (close_enough r name master cutoff)).
  { apply close_enough_in. repeat split; auto. now apply Qle_bool_iff. }
  specialize (Hup _ Hiny).
  split.
  - apply Qnot_lt_le. intros Hlt.
    assert (pair_lt (r v name, v) (r y name, y) = true)
      by (apply pair_lt_true; now left).
    congruence.
  - intros Heq. destruct (String.ltb v y) eqn:El; [|reflexivity].
    assert (pair_lt (r v name, v) (r y name, y) = true).
    { apply pair_lt_true. right. simpl. split; [now symmetry | assumption]. }
    congruence.
Qed.


(** X4.  With RapidFuzz installed and no oracle, the per-sheet decision of
    the application is [match_vendor] on the sheet title, for every non-empty
    title and master list.  Without RapidFuzz the two part: the application
    makes no library call and leaves the vendor empty, where [match_vendor]
    goes on to [get_close_matches]. *)
Theorem sheet_vendor_agrees_with_match_vendor :
  forall (partial_ratio ratio : string -> string -> Q)
         (client : string -> list string -> completion)
         (threshold : Q) (master : list string) (title : string),
    title <> "" ->
    master <> [] ->
    sheet_vendor partial_ratio true false client threshold master title
    = match_vendor partial_ratio ratio true title master threshold None
    /\ sheet_vendor partial_ratio false false client threshold master title
       = ([], Return "")
    /\ trace (match_vendor partial_ratio ratio false title master threshold None)
       = [GetCloseMatches title master 1 (cutoff_of_threshold threshold)].
Proof.
  intros pr r client threshold master title Hn Hm. split; [|split].
  - rewrite sheet_vendor_run, fuzzy_matching_run.
    rewrite (match_vendor_primary pr r true _ _ threshold None Hn Hm eq_refl)
      by discriminate.
    unfold trace, value, result; simpl.
    rewrite andb_false_r. reflexivity.
  - rewrite sheet_vendor_run, fuzzy_matching_run. reflexivity.
  - rewrite (match_vendor_degraded pr r false _ _ threshold None Hn Hm)
      by now left.
    reflexivity.
Qed.

(** * Sheet names, table names and the vendor column *)

Lemma string_length_append (a b : string) :
  String.length (a ++ b)%string = String.length a + String.length b.
Proof. induction a as [|c a IH]; simpl; [reflexivity | now rewrite IH]. Qed.

Lemma string_append_assoc (a b c : string) :
  ((a ++ b) ++ c = a ++ (b ++ c))%string.
Proof. induction a as [|x a IH]; simpl; [reflexivity | now rewrite IH]. Qed.

Lemma string_append_nil_r (a : string) : (a ++ "")%string = a.
Proof. induction a as [|x a IH]; simpl; [reflexivity | now rewrite IH]. Qed.

Lemma slice_to_length (n : nat) (s : string) : String.length (slice_to n s) <= n.
Proof.
  revert s. induction n as [|n IH]; intros [|c s]; simpl; try lia.
  specialize (IH s). lia.
Qed.

Lemma slice_to_prefix (n : nat) (s : string) :
  exists rest, s = (slice_to n s ++ rest)%string.
Proof.
  revert s. induction n as [|n IH]; intros [|c s]; simpl.
  - now exists "".
  - now exists (String c s).
  - now exists "".
  - destruct (IH s) as [rest Hrest]. exists rest. now rewrite <- Hrest.
Qed.

Lemma slice_to_short (n : nat) (s : string) :
  String.length s <= n -> slice_to n s = s.
Proof.
  revert s. induction n as [|n IH]; intros [|c s]; simpl; intros H;
    try reflexivity; try lia.
  rewrite IH; [reflexivity | lia].
Qed.

Lemma rsplit_dot_none (s : string) : rsplit_dot s = None <-> has_dot s = false.
Proof.
  induction s as [|c s IH]; simpl; [tauto|].
  destruct (rsplit_dot s) as [[h t]|].
  - split; [discriminate|]. intros H. apply orb_false_iff in H.
    destruct H as [_ H]. apply IH in H. discriminate.
  - destruct (Ascii.eqb c ".") eqn:E; simpl.
    + split; discriminate.
    + split; intros _; [now apply IH | reflexivity].
Qed.

Lemma rsplit_dot_some (s head tail : string) :
  rsplit_dot s = Some (head, tail) ->
  s = (head ++ "." ++ tail)%string /\ has_dot tail = false.
Proof.
  revert head. induction s as [|c s IH]; intros head H; simpl in H;
    [discriminate|].
  destruct (rsplit_dot s) as [[h t]|] eqn:E.
  - inversion H; subst. destruct (IH h eq_refl) as [-> Ht]. now split.
  - destruct (Ascii.eqb c ".") eqn:Ec; [|discriminate].
    inversion H; subst. apply Ascii.eqb_eq in Ec. subst c.
    split; [reflexivity | now apply rsplit_dot_none].
Qed.

Lemma rsplit_dot_append (stem ext : string) :
  has_dot ext = false -> rsplit_dot (stem ++ "." ++ ext)%string = Some (stem, ext).
Proof.
  intros H. induction stem as [|c stem IH]; simpl.
  - apply rsplit_dot_none in H. now rewrite H.
  - simpl in IH. now rewrite IH.
Qed.

(** X5.  The sheet name derived from a file name has at most 31 characters
    and is a prefix of the file name. *)
Theorem sheet_name_is_short_prefix :
  forall f_name : string,
    String.length (sheet_name f_name) <= 31
    /\ exists rest, f_name = (sheet_name f_name ++ rest)%string.
Proof.
  intros f. unfold sheet_name. split; [apply slice_to_length|].
  destruct (slice_to_prefix 31 (rsplit_dot_head f)) as [rest Hrest].
  unfold rsplit_dot_head in *.
  destruct (rsplit_dot f) as [[h t]|] eqn:E.
  - apply rsplit_dot_some in E. destruct E as [-> _].
    exists (rest ++ "." ++ t)%string.
    rewrite <- (string_append_assoc (slice_to 31 h) rest), <- Hrest. reflexivity.
  - now exists rest.
Qed.

(** X6.  Only the last extension is dropped: for an extension without a dot,
    the sheet name of [stem.ext] is the first 31 characters of [stem] (dots
    inside [stem] stay), and a file name without any dot is kept whole, up to
    31 characters. *)
Theorem sheet_name_drops_last_extension :
  forall stem ext : string,
    has_dot ext = false ->
    sheet_name (stem ++ "." ++ ext)%string = slice_to 31 stem
    /\ sheet_name ext = slice_to 31 ext.
Proof.
  intros stem ext H. unfold sheet_name, rsplit_dot_head. split.
  - now rewrite (rsplit_dot_append stem ext H).
  - apply rsplit_dot_none in H. now rewrite H.
Qed.

Lemma is_word_char_underscore : is_word_char "_" = true.
Proof. reflexivity. Qed.

Lemma safe_all_word_chars (title : string) : all_word_chars (safe title) = true.
Proof.
  induction title as [|c rest IH]; simpl; [reflexivity|].
  rewrite IH, andb_true_r.
  destruct (is_word_char c) eqn:E; [exact E | reflexivity].
Qed.

Lemma safe_fixed (title : string) : all_word_chars title = true -> safe title = title.
Proof.
  induction title as [|c rest IH]; simpl; [reflexivity|].
  intros H. apply andb_true_iff in H. destruct H as [Hc Hr].
  rewrite Hc, (IH Hr). reflexivity.
Qed.

(** X7.  Sanitising a sheet title keeps its length, leaves only characters
    of [[A-Za-z0-9_]], changes nothing in a title that is already made of
    such characters and is therefore idempotent; the table name built from
    it is made of such characters as well. *)
Theorem safe_title_properties :
  forall title : string,
    String.length (safe title) = String.length title
    /\ all_word_chars (safe title) = true
    /\ safe (safe title) = safe title
    /\ (all_word_chars title = true -> safe title = title)
    /\ all_word_chars (displayName title) = true.
Proof.
  intros title. split; [|split; [|split; [|split]]].
  - induction title as [|c rest IH]; simpl; [reflexivity | now rewrite IH].
  - apply safe_all_word_chars.
  - apply safe_fixed, safe_all_word_chars.
  - apply safe_fixed.
  - unfold displayName. simpl. apply safe_all_word_chars.
Qed.

Lemma set_cells_frame (v : string) (rows : list nat) :
  forall ws,
    let ws' := fold_left (fun w row => set_cell_value w row 1 v) rows ws in
    ws_title ws' = ws_title ws
    /\ max_row ws' = max_row ws
    /\ max_column ws' = max_column ws
    /\ forall r c,
        cell_value ws' r c
        = if (c =? 1)%nat && existsb (Nat.eqb r) rows then Some v
          else cell_value ws r c.
Proof.
  induction rows as [|row rows IH]; intros ws; cbv zeta; simpl.
  - repeat split. intros r c. now rewrite andb_false_r.
  - destruct (IH (set_cell_value ws row 1 v)) as (H1 & H2 & H3 & H4).
    cbv zeta in H4. simpl in *. repeat split; auto.
    intros r c. rewrite H4.
    destruct (c =? 1)%nat eqn:Ec; simpl.
    + destruct (existsb (Nat.eqb r) rows) eqn:Ee.
      * now rewrite orb_true_r.
      * rewrite orb_false_r. rewrite andb_true_r. reflexivity.
    + rewrite andb_false_r. reflexivity.
Qed.

(** X8.  Writing the vendor puts the same value into the first column of
    every row from the second to the last, and changes nothing else: not the
    header row, not another column, not a row beyond the sheet's extent, nor
    the title or the extent. *)
Theorem write_vendor_fills_first_column :
  forall (ws : worksheet) (vendor : string),
    ws_title (write_vendor ws vendor) = ws_title ws
    /\ max_row (write_vendor ws vendor) = max_row ws
    /\ max_column (write_vendor ws vendor) = max_column ws
    /\ (forall r, 2 <= r <= max_row ws ->
                  cell_value (write_vendor ws vendor) r 1 = Some vendor)
    /\ (forall r c, r < 2 \/ max_row ws < r \/ c <> 1 ->
                    cell_value (write_vendor ws vendor) r c = cell_value ws r c).
Proof.
  intros ws vendor. unfold write_vendor.
  assert (Hv : or_empty vendor = vendor).
  { unfold or_empty. destruct (is_empty vendor) eqn:E; [|reflexivity].
    apply is_empty_true in E. now subst. }
  rewrite Hv.
  destruct (set_cells_frame vendor (seq 2 (max_row ws - 1)) ws) as (H1 & H2 & H3 & H4).
  cbv zeta in *. repeat split; auto.
  - intros r Hr. rewrite H4. simpl.
    assert (E : existsb (Nat.eqb r) (seq 2 (max_row ws - 1)) = true).
    { apply existsb_exists. exists r. split; [|apply Nat.eqb_refl].
      apply in_seq. lia. }
    now rewrite E.
  - intros r c Hrc. rewrite H4.
    destruct (c =? 1)%nat eqn:Ec; [|reflexivity]. simpl.
    apply Nat.eqb_eq in Ec.
    destruct (existsb (Nat.eqb r) (seq 2 (max_row ws - 1))) eqn:E; [|reflexivity].
    apply existsb_exists in E. destruct E as (x & Hx & Hrx).
    apply Nat.eqb_eq in Hrx. subst x. apply in_seq in Hx. lia.
Qed.

(** * The requirements reader *)

Lemma rstrip_idempotent (s : string) : rstrip (rstrip s) = rstrip s.
Proof.
  induction s as [|c s IH]; simpl; [reflexivity|].
  destruct (isspace c && is_empty (rstrip s)) eqn:E; simpl; [reflexivity|].
  rewrite IH, E. reflexivity.
Qed.

Lemma lstrip_head (s : string) :
  lstrip s = "" \/ exists c t, lstrip s = String c t /\ isspace c = false.
Proof.
  induction s as [|c s IH]; simpl; [now left|].
  destruct (isspace c) eqn:E; [exact IH|].
  right. now exists c, s.
Qed.

Lemma strip_idempotent (s : string) : strip (strip s) = strip s.
Proof.
  unfold strip. destruct (lstrip_head s) as [-> | (c & t & -> & Hc)].
  - reflexivity.
  - simpl. rewrite Hc. simpl. rewrite Hc. simpl. rewrite Hc. simpl.
    now rewrite rstrip_idempotent.
Qed.

Lemma read_requirements_kept (fh : list string) (l : string) :
  In l (CheckDeps.read_requirements fh) ->
  (exists raw, In raw fh /\ l = strip raw)
  /\ is_empty l = false
  /\ CheckDeps.startswith l "#" = false
  /\ CheckDeps.startswith l "-e" = false
  /\ CheckDeps.contains "git+" l = false
  /\ CheckDeps.startswith l "https://" = false.
Proof.
  induction fh as [|raw rest IH]; simpl; [intros []|].
  assert (Hrest : In l (CheckDeps.read_requirements rest) ->
                  (exists raw0, (raw = raw0 \/ In raw0 rest) /\ l = strip raw0)
                  /\ is_empty l = false
                  /\ CheckDeps.startswith l "#" = false
                  /\ CheckDeps.startswith l "-e" = false
                  /\ CheckDeps.contains "git+" l = false
                  /\ CheckDeps.startswith l "https://" = false).
  { intros H. destruct (IH H) as ((raw0 & Hin & Heq) & Hrest).
    split; [exists raw0; auto | exact Hrest]. }
  destruct (is_empty (strip raw)) eqn:E1; simpl; [exact Hrest|].
  destruct (CheckDeps.startswith (strip raw) "#") eqn:E2; simpl; [exact Hrest|].
  destruct (CheckDeps.startswith (strip raw) "-e") eqn:E3; simpl; [exact Hrest|].
  destruct (CheckDeps.contains "git+" (strip raw)) eqn:E4; simpl; [exact Hrest|].
  destruct (CheckDeps.startswith (strip raw) "https://") eqn:E5; simpl;
    [exact Hrest|].
  intros [<- | H]; [|now apply Hrest].
  split; [exists raw; auto|]. auto.
Qed.

Lemma read_requirements_of_clean (ls : list string) :
  (forall l, In l ls ->
             strip l = l
             /\ is_empty l = false
             /\ CheckDeps.startswith l "#" = false
             /\ CheckDeps.startswith l "-e" = false
             /\ CheckDeps.contains "git+" l = false
             /\ CheckDeps.startswith l "https://" = false) ->
  CheckDeps.read_requirements ls = ls.
Proof.
  induction ls as [|l rest IH]; intros H; simpl; [reflexivity|].
  destruct (H l (or_introl eq_refl)) as (H0 & H1 & H2 & H3 & H4 & H5).
  rewrite H0, H1, H2, H3, H4, H5. simpl.
  rewrite IH; [reflexivity|]. intros l' Hl'. apply H. now right.
Qed.

(** X9.  Every line [read_requirements] returns is a line of the file with
    the surrounding whitespace removed; it is not empty, not a comment, not an
    editable or VCS requirement and not a URL.  Reading the returned lines
    again returns them unchanged. *)
Theorem read_requirements_clean_and_stable :
  forall fh : list string,
    (forall l, In l (CheckDeps.read_requirements fh) ->
               (exists raw, In raw fh /\ l = strip raw)
               /\ strip l = l
               /\ l <> ""
               /\ CheckDeps.startswith l "#" = false
               /\ CheckDeps.startswith l "-e" = false
               /\ CheckDeps.contains "git+" l = false
               /\ CheckDeps.startswith l "https://" = false)
    /\ CheckDeps.read_requirements (CheckDeps.read_requirements fh)
       = CheckDeps.read_requirements fh.
Proof.
  intros fh.
  assert (H : forall l, In l (CheckDeps.read_requirements fh) ->
                        strip l = l
                        /\ is_empty l = false
                        /\ CheckDeps.startswith l "#" = false
                        /\ CheckDeps.startswith l "-e" = false
                        /\ CheckDeps.contains "git+" l = false
                        /\ CheckDeps.startswith l "https://" = false).
  { intros l Hl. destruct (read_requirements_kept fh l Hl)
      as ((raw & _ & ->) & H1 & H2 & H3 & H4 & H5).
    split; [apply strip_idempotent | auto]. }
  split.
  - intros l Hl. destruct (read_requirements_kept fh l Hl) as (Hraw & _).
    destruct (H l Hl) as (H0 & H1 & H2 & H3 & H4 & H5).
    apply is_empty_false in H1. auto 10.
  - now apply read_requirements_of_clean.
Qed.

(** * Requirement names *)

Lemma split_at_operator_eq (s : string) :
  CheckDeps.split_at_operator s
  = if CheckDeps.operator_here (lstrip s) then Some ""
    else match s with
         | EmptyString => None
         | String c rest =>
             match CheckDeps.split_at_operator rest with
             | Some head => Some (String c head)
             | None => None
             end
         end.
Proof. destruct s; reflexivity. Qed.

Lemma prefix_head (a c : ascii) (p s : string) :
  String.prefix (String a p) (String c s) = true -> a = c.
Proof.
  cbn [String.prefix]. destruct (ascii_dec a c); [auto | discriminate].
Qed.

Lemma prefix_single (a : ascii) (s : string) :
  String.prefix (String a "") (String a s) = true.
Proof.
  cbn [String.prefix]. destruct (ascii_dec a a); [now destruct s | congruence].
Qed.

Lemma prefix_append (p s : string) : String.prefix p (p ++ s)%string = true.
Proof.
  induction p as [|a p IH]; cbn [String.prefix append]; [now destruct s|].
  destruct (ascii_dec a a); [exact IH | congruence].
Qed.

Lemma operator_here_head (c : ascii) (s : string) :
  CheckDeps.operator_here (String c s) = true ->
  c = "="%char \/ c = ">"%char \/ c = "<"%char \/ c = "~"%char.
Proof.
  unfold CheckDeps.operator_here. intros H.
  repeat (apply orb_true_iff in H; destruct H as [H | H]);
    apply prefix_head in H; auto.
Qed.

Lemma operator_here_not_space (s : string) :
  CheckDeps.operator_here s = true -> lstrip s = s.
Proof.
  destruct s as [|c s]; [discriminate|]. intros H.
  apply operator_here_head in H.
  destruct H as [-> | [-> | [-> | ->]]]; reflexivity.
Qed.

Lemma angle_starts_operator (c : ascii) (s : string) :
  c = "<"%char \/ c = ">"%char ->
  lstrip (String c s) = String c s
  /\ CheckDeps.operator_here (String c s) = true.
Proof.
  intros [-> | ->]; (split; [reflexivity|]); unfold CheckDeps.operator_here;
    rewrite prefix_single; now rewrite ?orb_true_r.
Qed.

Lemma split_at_operator_head (s head : string) :
  CheckDeps.split_at_operator s = Some head ->
  (exists rest, s = (head ++ rest)%string)
  /\ CheckDeps.has_char "<" head = false
  /\ CheckDeps.has_char ">" head = false.
Proof.
  revert head. induction s as [|c s IH]; intros head H;
    rewrite split_at_operator_eq in H.
  - simpl in H. discriminate.
  - destruct (CheckDeps.operator_here (lstrip (String c s))) eqn:E.
    + inversion H; subst. split; [now exists (String c s) | now split].
    + destruct (CheckDeps.split_at_operator s) as [h|]; [|discriminate].
      inversion H; subst. destruct (IH h eq_refl) as ((rest & Hs) & H1 & H2).
      split; [exists rest; simpl; now rewrite <- Hs|].
      assert (Hc : c <> "<"%char /\ c <> ">"%char).
      { split; intros ->.
        - destruct (angle_starts_operator "<" s) as [Hl Ho]; [now left|].
          rewrite Hl, Ho in E. discriminate.
        - destruct (angle_starts_operator ">" s) as [Hl Ho]; [now right|].
          rewrite Hl, Ho in E. discriminate. }
      destruct Hc as [Hlt Hgt]. cbn [CheckDeps.has_char]. rewrite H1, H2.
      split; rewrite orb_false_r; apply Ascii.eqb_neq; congruence.
Qed.

Lemma before_operator_char_head (s : string) :
  (exists rest, s = (CheckDeps.before_operator_char s ++ rest)%string)
  /\ CheckDeps.has_char "<" (CheckDeps.before_operator_char s) = false
  /\ CheckDeps.has_char ">" (CheckDeps.before_operator_char s) = false.
Proof.
  induction s as [|c s ((rest & IH) & H1 & H2)]; cbn [CheckDeps.before_operator_char].
  - split; [now exists "" | now split].
  - destruct (CheckDeps.is_operator_char c) eqn:E.
    + split; [now exists (String c s) | now split].
    + split; [exists rest; cbn [append]; now rewrite <- IH|].
      cbn [CheckDeps.has_char].
      rewrite H1, H2. unfold CheckDeps.is_operator_char in E.
      repeat (apply orb_false_iff in E; destruct E as [E ?]).
      rewrite !orb_false_r.
      split; rewrite Ascii.eqb_sym; assumption.
Qed.

(** X10.  [req_name_and_spec] returns the requirement line itself as the
    spec.  When [packaging] is missing or cannot parse the line, the name it
    returns is a prefix of the line and holds neither [<] nor [>]. *)
Theorem req_name_and_spec_fallback :
  forall (packaging : option CheckDeps.packaging_api) (req_line : string),
    snd (CheckDeps.req_name_and_spec packaging req_line) = req_line
    /\ (forall api,
           packaging = Some api ->
           CheckDeps.requirement_name api req_line = None ->
           CheckDeps.req_name_and_spec packaging req_line
           = CheckDeps.req_name_and_spec None req_line)
    /\ (exists rest,
           req_line
           = (fst (CheckDeps.req_name_and_spec None req_line) ++ rest)%string)
    /\ CheckDeps.has_char "<" (fst (CheckDeps.req_name_and_spec None req_line))
       = false
    /\ CheckDeps.has_char ">" (fst (CheckDeps.req_name_and_spec None req_line))
       = false.
Proof.
  intros packaging req_line. split; [|split].
  - unfold CheckDeps.req_name_and_spec.
    destruct packaging as [api|]; [|reflexivity].
    destruct (CheckDeps.requirement_name api req_line); reflexivity.
  - intros api -> H. unfold CheckDeps.req_name_and_spec. now rewrite H.
  - unfold CheckDeps.req_name_and_spec, CheckDeps.fallback_name. simpl.
    destruct (CheckDeps.split_at_operator req_line) as [head|] eqn:E.
    + now apply split_at_operator_head.
    + apply before_operator_char_head.
Qed.

Lemma plain_head_not_operator (c : ascii) (s : string) :
  CheckDeps.is_operator_char c = false ->
  CheckDeps.operator_here (String c s) = false.
Proof.
  intros H. destruct (CheckDeps.operator_here (String c s)) eqn:E; [|reflexivity].
  apply operator_here_head in E.
  destruct E as [-> | [-> | [-> | ->]]]; vm_compute in H; discriminate.
Qed.

Lemma split_at_operator_plain (pkg tail : string) :
  CheckDeps.plain_name pkg = true ->
  CheckDeps.operator_here tail = true ->
  CheckDeps.split_at_operator (pkg ++ tail)%string = Some pkg.
Proof.
  intros Hp Ht. induction pkg as [|c pkg IH]; rewrite split_at_operator_eq.
  - simpl append. now rewrite (operator_here_not_space tail Ht), Ht.
  - simpl in Hp. apply andb_true_iff in Hp. destruct Hp as [Hp Hrest].
    apply andb_true_iff in Hp. destruct Hp as [Hop Hsp].
    apply negb_true_iff in Hop. apply negb_true_iff in Hsp.
    simpl append. simpl lstrip. rewrite Hsp.
    rewrite (plain_head_not_operator c _ Hop). now rewrite (IH Hrest).
Qed.

(** X11.  Without [packaging], a line made of a plain package name, one of
    the operators [==], [>=], [<=], [~=], [>], [<] and anything after it
    gives back exactly the package name. *)
Theorem req_name_of_plain_requirement :
  forall (pkg op rest : string),
    CheckDeps.plain_name pkg = true ->
    In op ["=="; ">="; "<="; "~="; ">"; "<"] ->
    CheckDeps.req_name_and_spec None (pkg ++ op ++ rest)%string
    = (pkg, (pkg ++ op ++ rest)%string).
Proof.
  intros pkg op rest Hp Hop.
  unfold CheckDeps.req_name_and_spec, CheckDeps.fallback_name.
  rewrite (split_at_operator_plain pkg (op ++ rest)%string Hp); [reflexivity|].
  simpl in Hop.
  unfold CheckDeps.operator_here.
  destruct Hop as [<- | [<- | [<- | [<- | [<- | [<- | []]]]]]];
    rewrite prefix_append; rewrite ?orb_true_r; reflexivity.
Qed.

(** * The dependency table *)

Lemma for_each_print {A : Type} (text : A -> string) (xs : list A) :
  Cli.for_each xs (fun x => Cli.act (Cli.Print (text x)))
  = (map (fun x => Cli.Print (text x)) xs, inr tt).
Proof.
  induction xs as [|x xs IH]; [reflexivity|].
  cbn [Cli.for_each map]. rewrite IH. reflexivity.
Qed.

Lemma spaces_length (n : nat) : String.length (CheckDeps.spaces n) = n.
Proof. induction n as [|n IH]; simpl; [reflexivity | now rewrite IH]. Qed.

Lemma dashes_length (n : nat) : String.length (CheckDeps.dashes n) = n.
Proof. induction n as [|n IH]; simpl; [reflexivity | now rewrite IH]. Qed.

Lemma pad_length (w : nat) (s : string) :
  String.length s <= w -> String.length (CheckDeps.pad w s) = w.
Proof.
  intros H. unfold CheckDeps.pad. rewrite string_length_append, spaces_length. lia.
Qed.

Lemma width_ge (col : list string) (s : string) :
  In s col -> String.length s <= CheckDeps.width col.
Proof.
  unfold CheckDeps.width. induction col as [|x col IH]; simpl; [intros []|].
  intros [<- | H]; [lia|]. specialize (IH H). lia.
Qed.

Lemma format_row_length (w0 w1 w2 w3 w4 : nat) (a b c d e : string) :
  String.length a <= w0 -> String.length b <= w1 -> String.length c <= w2 ->
  String.length d <= w3 -> String.length e <= w4 ->
  String.length (CheckDeps.format_row [w0; w1; w2; w3; w4] [a; b; c; d; e])
  = w0 + w1 + w2 + w3 + w4 + 8.
Proof.
  intros Ha Hb Hc Hd He. unfold CheckDeps.format_row. cbn [combine map fst snd].
  cbn [String.concat].
  rewrite !string_length_append, !pad_length by assumption.
  cbn [String.length]. lia.
Qed.

Lemma widths_columns (results : list CheckDeps.DepStatus) :
  CheckDeps.widths results
  = map (fun k =>
           CheckDeps.width
             (nth k CheckDeps.cols ""
              :: map (fun r => nth k (CheckDeps.table_row r) "") results))
      [0; 1; 2; 3; 4].
Proof.
  unfold CheckDeps.widths, CheckDeps.columns. cbn [List.length CheckDeps.cols seq].
  cbn [map]. rewrite !map_map. reflexivity.
Qed.

(** X12.  The table [print_table] prints is rectangular: the header, the
    rule under it and every row have the same length, the five column widths
    and the four two-space gaps; no cell is wider than its column. *)
Theorem print_table_is_rectangular :
  forall (results : list CheckDeps.DepStatus),
    (forall line,
        In line (CheckDeps.table_lines results) ->
        String.length line = list_sum (CheckDeps.widths results) + 8)
    /\ (forall r k,
           In r results ->
           String.length (nth k (CheckDeps.table_row r) "")
           <= nth k (CheckDeps.widths results) 0%nat)
    /\ fst (CheckDeps.print_table results)
       = map Cli.Print (CheckDeps.table_lines results).
Proof.
  intros results.
  assert (Hcell : forall r k, k < 5 -> In r results ->
            String.length (nth k (CheckDeps.table_row r) "")
            <= CheckDeps.width
                 (nth k CheckDeps.cols ""
                  :: map (fun r => nth k (CheckDeps.table_row r) "") results)).
  { intros r k _ Hr. apply width_ge. right.
    apply in_map_iff. exists r. auto. }
  assert (Hhead : forall k,
            String.length (nth k CheckDeps.cols "")
            <= CheckDeps.width
                 (nth k CheckDeps.cols ""
                  :: map (fun r => nth k (CheckDeps.table_row r) "") results)).
  { intros k. apply width_ge. now left. }
  split; [|split].
  - intros line Hline. unfold CheckDeps.table_lines in Hline.
    cbv zeta in Hline. rewrite widths_columns in *. cbn [map] in *.
    destruct Hline as [<- | [<- | Hline]].
    + unfold CheckDeps.cols at 6.
      rewrite format_row_length;
        [ unfold list_sum; cbn [fold_right]; lia
        | exact (Hhead 0) | exact (Hhead 1) | exact (Hhead 2)
        | exact (Hhead 3) | exact (Hhead 4) ].
    + rewrite dashes_length. unfold list_sum; cbn [fold_right List.length]; lia.
    + apply in_map_iff in Hline. destruct Hline as (r & <- & Hr).
      unfold CheckDeps.table_row at 6.
      rewrite format_row_length.
      * unfold list_sum; cbn [fold_right]; lia.
      * apply (Hcell r 0); [lia | assumption].
      * apply (Hcell r 1); [lia | assumption].
      * apply (Hcell r 2); [lia | assumption].
      * apply (Hcell r 3); [lia | assumption].
      * apply (Hcell r 4); [lia | assumption].
  - intros r k Hr. rewrite widths_columns.
    destruct k as [|[|[|[|[|k]]]]]; cbn [nth map];
      try (apply (Hcell r); [lia | assumption]).
    unfold CheckDeps.table_row. cbn [nth]. destruct k; simpl; lia.
  - unfold CheckDeps.print_table.
    rewrite (for_each_print (fun line : string => line)). reflexivity.
Qed.

(** * Upgrading packages *)

Lemma subprocesses_app (t1 t2 : list Cli.action) :
  Cli.subprocesses (t1 ++ t2) = Cli.subprocesses t1 ++ Cli.subprocesses t2.
Proof.
  induction t1 as [|a t1 IH]; [reflexivity|].
  destruct a; simpl; rewrite IH; reflexivity.
Qed.

Lemma subprocesses_prints {A : Type} (text : A -> string) (xs : list A) :
  Cli.subprocesses (map (fun x => Cli.Print (text x)) xs) = [].
Proof. induction xs as [|x xs IH]; [reflexivity | exact IH]. Qed.

Lemma and_then_run {A B : Type} (m : Cli.io A) (f : A -> Cli.io B) :
  Cli.and_then m f
  = match snd m with
    | inl e => (fst m, inl e)
    | inr a => (fst m ++ fst (f a), snd (f a))
    end.
Proof.
  destruct m as [t [e | a]]; simpl; [reflexivity|]. now destruct (f a).
Qed.

Section InstallLoop.

Variable sys_executable : string.
Variable exit_ok : list string -> bool.

Let pip := CheckDeps.pip_install sys_executable.

Let body := fun pkg : string =>
  Cli.and_then
    (Cli.act (Cli.Print ("Running: " ++ Cli.join_space (pip pkg))%string))
    (fun _ => Cli.subprocess_run exit_ok (pip pkg) None true).

Lemma install_step (pkg : string) :
  body pkg
  = ([Cli.Print ("Running: " ++ Cli.join_space (pip pkg))%string;
      Cli.Subprocess (pip pkg) None],
     if exit_ok (pip pkg) then inr tt else inl (Cli.CalledProcessError (pip pkg))).
Proof.
  unfold body, Cli.subprocess_run, Cli.and_then, Cli.act. simpl.
  destruct (exit_ok (pip pkg)); reflexivity.
Qed.

Lemma install_loop_ok (pkgs : list string) :
  (forall p, In p pkgs -> exit_ok (pip p) = true) ->
  Cli.subprocesses (fst (Cli.for_each pkgs body)) = map pip pkgs
  /\ snd (Cli.for_each pkgs body) = inr tt.
Proof.
  induction pkgs as [|p pkgs IH]; intros H; [now split|].
  cbn [Cli.for_each]. rewrite and_then_run, install_step.
  rewrite (H p (or_introl eq_refl)). cbn [fst snd].
  destruct IH as [IH1 IH2]; [intros q Hq; apply H; now right|].
  rewrite subprocesses_app, IH1, IH2. now split.
Qed.

Lemma install_loop_fails (finished : list string) (bad : string) (rest : list string) :
  (forall p, In p finished -> exit_ok (pip p) = true) ->
  exit_ok (pip bad) = false ->
  Cli.subprocesses (fst (Cli.for_each (finished ++ bad :: rest) body))
  = map pip (finished ++ [bad])
  /\ snd (Cli.for_each (finished ++ bad :: rest) body)
     = inl (Cli.CalledProcessError (pip bad)).
Proof.
  intros H Hbad. induction finished as [|p finished IH].
  - cbn [app Cli.for_each]. rewrite and_then_run, install_step, Hbad. now split.
  - cbn [app Cli.for_each]. rewrite and_then_run, install_step.
    rewrite (H p (or_introl eq_refl)). cbn [fst snd].
    destruct IH as [IH1 IH2]; [intros q Hq; apply H; now right|].
    rewrite subprocesses_app, IH1, IH2. now split.
Qed.

Lemma install_loop_commands (pkgs : list string) (cmd : list string) :
  In cmd (Cli.subprocesses (fst (Cli.for_each pkgs body))) ->
  exists p, In p pkgs /\ cmd = pip p.
Proof.
  induction pkgs as [|p pkgs IH]; [intros []|].
  cbn [Cli.for_each]. rewrite and_then_run, install_step.
  destruct (exit_ok (pip p)); cbn [fst snd].
  - rewrite subprocesses_app. intros Hin. apply in_app_or in Hin.
    destruct Hin as [[<- | []] | Hin].
    + exists p. split; [now left | reflexivity].
    + destruct (IH Hin) as (q & Hq & ->). exists q. split; [now right | reflexivity].
  - intros [<- | []]. exists p. split; [now left | reflexivity].
Qed.

Lemma install_all_run (pkgs : list string) :
  Cli.subprocesses (fst (CheckDeps.install_all sys_executable exit_ok pkgs))
  = Cli.subprocesses (fst (Cli.for_each pkgs body))
  /\ snd (CheckDeps.install_all sys_executable exit_ok pkgs)
     = snd (Cli.for_each pkgs body).
Proof.
  unfold CheckDeps.install_all. fold pip. fold body.
  rewrite and_then_run.
  destruct (snd (Cli.for_each pkgs body)) as [e | []] eqn:E; cbn [fst snd].
  - now split.
  - rewrite subprocesses_app. simpl. now rewrite app_nil_r.
Qed.

End InstallLoop.

Lemma to_install_in (pkgs : list CheckDeps.DepStatus) (n : string) :
  In n (CheckDeps.to_install pkgs) ->
  exists p, In p pkgs /\ CheckDeps.needs_install p = true /\ CheckDeps.name p = n.
Proof.
  unfold CheckDeps.to_install. intros H. apply in_map_iff in H.
  destruct H as (p & Hn & Hp). apply filter_In in Hp.
  exists p. tauto.
Qed.

(** The run of [upgrade_packages] once the packages are listed: the prompt
    unless [assume_yes], then the installs when the answer is yes. *)
Lemma upgrade_packages_run (sys_executable : string) (stdin : option string)
    (exit_ok : list string -> bool) (pkgs : list CheckDeps.DepStatus)
    (assume_yes : bool) :
  let confirmed :=
    assume_yes
    || match stdin with
       | Some line =>
           String.eqb (CheckDeps.lower (strip line)) "y"
           || String.eqb (CheckDeps.lower (strip line)) "yes"
       | None => false
       end in
  Cli.subprocesses
    (fst (CheckDeps.upgrade_packages sys_executable stdin exit_ok pkgs assume_yes))
  = (if confirmed
     then Cli.subprocesses
            (fst (CheckDeps.install_all sys_executable exit_ok
                    (CheckDeps.to_install pkgs)))
     else [])
  /\ (confirmed = true ->
      snd (CheckDeps.upgrade_packages sys_executable stdin exit_ok pkgs assume_yes)
      = snd (CheckDeps.install_all sys_executable exit_ok
               (CheckDeps.to_install pkgs))).
Proof.
  cbv zeta. unfold CheckDeps.upgrade_packages.
  destruct (CheckDeps.to_install pkgs) as [|p ps] eqn:E.
  - cbn [is_nil]. simpl. split; [now destruct (_ || _) | reflexivity].
  - cbn [is_nil]. rewrite <- E.
    rewrite and_then_run. cbn [Cli.act fst snd].
    rewrite and_then_run. rewrite (for_each_print (fun p => (" - " ++ p)%string)).
    cbn [fst snd].
    rewrite !subprocesses_app. rewrite subprocesses_prints.
    cbn [Cli.subprocesses app].
    destruct assume_yes; cbn [negb orb]; [now split|].
    unfold Cli.input. rewrite !and_then_run. cbn [Cli.act fst snd].
    destruct stdin as [line|]; cbn [Cli.pure Cli.throw fst snd].
    + destruct (String.eqb (CheckDeps.lower (strip line)) "y"
                || String.eqb (CheckDeps.lower (strip line)) "yes");
        cbn [negb Cli.act fst snd app Cli.subprocesses].
      * now split.
      * split; [reflexivity | discriminate].
    + split; [reflexivity | discriminate].
Qed.

(** X13.  [upgrade_packages] starts no process other than [pip install -U]
    on a package reported missing or outdated; and unless [assume_yes] is
    set, it starts none at all when the answer to the prompt, stripped and
    lower-cased, is neither [y] nor [yes], or when no answer can be read. *)
Theorem upgrade_packages_only_confirmed_installs :
  forall (sys_executable : string) (stdin : option string)
         (exit_ok : list string -> bool) (pkgs : list CheckDeps.DepStatus)
         (assume_yes : bool),
    (forall cmd,
        In cmd (Cli.subprocesses
                  (fst (CheckDeps.upgrade_packages sys_executable stdin exit_ok
                          pkgs assume_yes))) ->
        exists p,
          In p pkgs
          /\ (CheckDeps.status p = "missing" \/ CheckDeps.status p = "outdated")
          /\ cmd = [sys_executable; "-m"; "pip"; "install"; "-U"; CheckDeps.name p])
    /\ (assume_yes = false ->
        (forall line, stdin = Some line ->
                      CheckDeps.lower (strip line) <> "y"
                      /\ CheckDeps.lower (strip line) <> "yes") ->
        Cli.subprocesses
          (fst (CheckDeps.upgrade_packages sys_executable stdin exit_ok
                  pkgs assume_yes)) = []).
Proof.
  intros exe stdin exit_ok pkgs assume_yes.
  destruct (upgrade_packages_run exe stdin exit_ok pkgs assume_yes) as [Hsub _].
  cbv zeta in Hsub. rewrite Hsub. split.
  - intros cmd Hin.
    destruct (assume_yes || _); [|destruct Hin].
    rewrite (proj1 (install_all_run exe exit_ok _)) in Hin.
    apply install_loop_commands in Hin. destruct Hin as (n & Hn & ->).
    apply to_install_in in Hn. destruct Hn as (p & Hp & Hneed & <-).
    exists p. split; [assumption|]. split; [|reflexivity].
    unfold CheckDeps.needs_install in Hneed. apply orb_true_iff in Hneed.
    destruct Hneed as [H | H]; apply String.eqb_eq in H; auto.
  - intros -> Hno. cbn [orb]. destruct stdin as [line|]; [|reflexivity].
    destruct (Hno line eq_refl) as [Hy Hyes].
    apply String.eqb_neq in Hy. apply String.eqb_neq in Hyes.
    now rewrite Hy, Hyes.
Qed.

(** X14.  Once confirmed (by [assume_yes] or by the answer [y] or [yes] in
    any case and with any surrounding whitespace), [upgrade_packages] runs
    [pip install -U] for the missing and outdated packages in the order of
    the report.  When every run succeeds it covers them all and returns; at
    the first run that fails it stops with [CalledProcessError], leaving the
    packages after it untouched. *)
Theorem upgrade_packages_installs_in_order :
  forall (sys_executable : string) (stdin : option string)
         (exit_ok : list string -> bool) (pkgs : list CheckDeps.DepStatus)
         (assume_yes : bool),
    assume_yes = true
    \/ (exists line,
           stdin = Some line
           /\ (CheckDeps.lower (strip line) = "y"
               \/ CheckDeps.lower (strip line) = "yes")) ->
    ((forall p, In p (CheckDeps.to_install pkgs) ->
                exit_ok (CheckDeps.pip_install sys_executable p) = true) ->
     Cli.subprocesses
       (fst (CheckDeps.upgrade_packages sys_executable stdin exit_ok pkgs assume_yes))
     = map (CheckDeps.pip_install sys_executable) (CheckDeps.to_install pkgs)
     /\ snd (CheckDeps.upgrade_packages sys_executable stdin exit_ok pkgs assume_yes)
        = inr tt)
    /\ (forall finished bad rest,
           CheckDeps.to_install pkgs = finished ++ bad :: rest ->
           (forall p, In p finished ->
                      exit_ok (CheckDeps.pip_install sys_executable p) = true) ->
           exit_ok (CheckDeps.pip_install sys_executable bad) = false ->
           Cli.subprocesses
             (fst (CheckDeps.upgrade_packages sys_executable stdin exit_ok pkgs
                     assume_yes))
           = map (CheckDeps.pip_install sys_executable) (finished ++ [bad])
           /\ snd (CheckDeps.upgrade_packages sys_executable stdin exit_ok pkgs
                     assume_yes)
              = inl (Cli.CalledProcessError
                       (CheckDeps.pip_install sys_executable bad))).
Proof.
  intros exe stdin exit_ok pkgs assume_yes Hconf.
  destruct (upgrade_packages_run exe stdin exit_ok pkgs assume_yes) as [Hsub Hres].
  cbv zeta in Hsub, Hres.
  assert (Hc : assume_yes
               || match stdin with
                  | Some line =>
                      String.eqb (CheckDeps.lower (strip line)) "y"
                      || String.eqb (CheckDeps.lower (strip line)) "yes"
                  | None => false
                  end = true).
  { destruct Hconf as [-> | (line & -> & [H | H])]; [reflexivity | |];
      rewrite H; now rewrite ?orb_true_r. }
  rewrite Hc in Hsub. rewrite Hsub, (Hres Hc).
  destruct (install_all_run exe exit_ok (CheckDeps.to_install pkgs)) as [-> ->].
  split.
  - intros Hok. now apply install_loop_ok.
  - intros finished bad rest -> Hok Hbad. now apply install_loop_fails.
Qed.

(** * The dependency report *)

Lemma check_one_status (packaging : option CheckDeps.packaging_api)
    (installed_version : string -> option string)
    (requests_get : option (string -> CheckDeps.http_result)) (line : string) :
  let d := CheckDeps.check_one packaging installed_version requests_get line in
  CheckDeps.spec d = line
  /\ CheckDeps.name d = fst (CheckDeps.req_name_and_spec packaging line)
  /\ CheckDeps.installed d = installed_version (CheckDeps.name d)
  /\ ((CheckDeps.truthy (CheckDeps.installed d) = false
       /\ CheckDeps.status d = "missing")
      \/ (CheckDeps.truthy (CheckDeps.installed d) = true
          /\ (CheckDeps.status d = "unknown"
              /\ (CheckDeps.truthy (CheckDeps.latest d) = false \/ packaging = None)
              \/ exists api i l,
                  packaging = Some api
                  /\ CheckDeps.installed d = Some i
                  /\ CheckDeps.latest d = Some l
                  /\ l <> ""
                  /\ ((CheckDeps.version_lt api i l = Some true
                       /\ CheckDeps.status d = "outdated")
                      \/ (CheckDeps.version_lt api i l = Some false
                          /\ CheckDeps.status d = "up-to-date")
                      \/ (CheckDeps.version_lt api i l = None
                          /\ CheckDeps.status d = "error"))))).
Proof.
  cbv zeta. unfold CheckDeps.check_one. cbn [CheckDeps.spec CheckDeps.name
    CheckDeps.installed CheckDeps.latest CheckDeps.status].
  set (pkg := fst (CheckDeps.req_name_and_spec packaging line)).
  set (newest := match CheckDeps.get_latest_version_from_pypi requests_get pkg with
                 | inl _ => None
                 | inr v => v
                 end).
  repeat split.
  destruct (CheckDeps.truthy (installed_version pkg)) eqn:Ei; cbn [negb];
    [right | left; now split].
  split; [reflexivity|].
  destruct (CheckDeps.truthy newest) eqn:El; [|left; split; auto].
  destruct packaging as [api|]; [|left; split; auto].
  destruct (installed_version pkg) as [i|]; [|discriminate].
  destruct newest as [l|]; [|discriminate].
  right. exists api, i, l. repeat split.
  - intros ->. discriminate.
  - destruct (CheckDeps.version_lt api i l) as [[|]|]; auto.
Qed.

(** X15.  [check_deps] reports one entry per line kept by
    [read_requirements], in order and with the line as its spec.  An entry is
    "missing" exactly when no installed version is found; it is "outdated"
    only when [packaging] is there, PyPI gave a version, and the installed
    version compares strictly below it; and the status is always one of
    "missing", "outdated", "up-to-date", "error" and "unknown". *)
Theorem check_deps_report :
  forall (packaging : option CheckDeps.packaging_api)
         (installed_version : string -> option string)
         (requests_get : option (string -> CheckDeps.http_result))
         (fh : list string),
    map CheckDeps.spec
      (CheckDeps.check_deps packaging installed_version requests_get fh)
    = CheckDeps.read_requirements fh
    /\ forall d,
        In d (CheckDeps.check_deps packaging installed_version requests_get fh) ->
        (CheckDeps.status d = "missing"
         <-> CheckDeps.truthy (CheckDeps.installed d) = false)
        /\ (CheckDeps.status d = "outdated" ->
            exists api i l,
              packaging = Some api
              /\ CheckDeps.installed d = Some i
              /\ CheckDeps.latest d = Some l
              /\ CheckDeps.version_lt api i l = Some true)
        /\ In (CheckDeps.status d)
             ["missing"; "outdated"; "up-to-date"; "error"; "unknown"].
Proof.
  intros packaging installed_version requests_get fh. unfold CheckDeps.check_deps.
  split.
  - rewrite map_map. rewrite <- (map_id (CheckDeps.read_requirements fh)) at 2.
    apply map_ext. reflexivity.
  - intros d Hd. apply in_map_iff in Hd. destruct Hd as (line & <- & _).
    destruct (check_one_status packaging installed_version requests_get line)
      as (_ & _ & _ & H).
    cbv zeta in H.
    destruct H as [[Ht Hs] | [Ht [[Hs _] | (api & i & l & Hp & Hi & Hl & Hne & H)]]].
    + rewrite Hs, Ht. split; [tauto|]. split; [discriminate | simpl; auto].
    + rewrite Hs, Ht. split; [split; discriminate|].
      split; [discriminate | simpl; auto 10].
    + rewrite Ht.
      destruct H as [[Hv Hs] | [[Hv Hs] | [Hv Hs]]]; rewrite Hs;
        (split; [split; discriminate|]); (split; [|simpl; auto 10]).
      * intros _. exists api, i, l. auto.
      * discriminate.
      * discriminate.
Qed.

(** X16.  When [requests] cannot be imported, [check_deps] finds no latest
    version: every entry is "missing" or "unknown", none is "outdated", and
    the packages an upgrade would install are exactly those without an
    installed version. *)
Theorem check_deps_without_requests :
  forall (packaging : option CheckDeps.packaging_api)
         (installed_version : string -> option string)
         (fh : list string),
    (forall d,
        In d (CheckDeps.check_deps packaging installed_version None fh) ->
        CheckDeps.latest d = None
        /\ (CheckDeps.status d = "missing" \/ CheckDeps.status d = "unknown"))
    /\ CheckDeps.to_install
         (CheckDeps.check_deps packaging installed_version None fh)
       = map CheckDeps.name
           (filter (fun d => negb (CheckDeps.truthy (CheckDeps.installed d)))
              (CheckDeps.check_deps packaging installed_version None fh)).
Proof.
  intros packaging installed_version fh.
  assert (H : forall d,
             In d (CheckDeps.check_deps packaging installed_version None fh) ->
             CheckDeps.latest d = None
             /\ ((CheckDeps.truthy (CheckDeps.installed d) = false
                  /\ CheckDeps.status d = "missing")
                 \/ (CheckDeps.truthy (CheckDeps.installed d) = true
                     /\ CheckDeps.status d = "unknown"))).
  { intros d Hd. unfold CheckDeps.check_deps in Hd. apply in_map_iff in Hd.
    destruct Hd as (line & <- & _). unfold CheckDeps.check_one.
    cbn [CheckDeps.latest CheckDeps.installed CheckDeps.status
         CheckDeps.get_latest_version_from_pypi].
    split; [reflexivity|].
    destruct (CheckDeps.truthy _) eqn:E; cbn [negb CheckDeps.truthy]; auto. }
  split.
  - intros d Hd. destruct (H d Hd) as [Hl [[_ Hs] | [_ Hs]]]; auto.
  - unfold CheckDeps.to_install. f_equal. apply filter_ext_in.
    intros d Hd. unfold CheckDeps.needs_install.
    destruct (H d Hd) as [_ [[Ht Hs] | [Ht Hs]]]; rewrite Hs, Ht; reflexivity.
Qed.

(** * The developer tool *)

Section DevToolsRuns.

Variable sys_executable : string.
Variable exit_ok : list string -> bool.
Variable ROOT venv_dir : string.
Variable venv_exists : bool.
Variable help : string.

Lemma dev_run (cmd : list string) :
  DevTools.run exit_ok ROOT cmd true
  = ([Cli.Print ("Running: " ++ Cli.join_space cmd)%string;
      Cli.Subprocess cmd (Some ROOT)],
     if exit_ok cmd then inr tt else inl (Cli.CalledProcessError cmd)).
Proof.
  unfold DevTools.run, Cli.subprocess_run, Cli.and_then, Cli.act. simpl.
  destruct (exit_ok cmd); reflexivity.
Qed.

End DevToolsRuns.

(** X17.  Whatever the subcommand, [dev_tools] starts at most two child
    processes, each of them the running Python interpreter with the
    repository root as working directory, and never reads input.  [format]
    runs [isort] only after [black] succeeded, and [install-venv] starts
    nothing when the environment already exists. *)
Theorem dev_tools_runs_only_python :
  forall (sys_executable : string) (exit_ok : list string -> bool)
         (ROOT venv_dir : string) (venv_exists : bool) (help : string)
         (args_cmd : option string),
    (forall a,
        In a (fst (DevTools.main sys_executable exit_ok ROOT venv_dir venv_exists
                     help args_cmd)) ->
        (exists text, a = Cli.Print text)
        \/ (exists rest, a = Cli.Subprocess (sys_executable :: rest) (Some ROOT)))
    /\ List.length
         (Cli.subprocesses
            (fst (DevTools.main sys_executable exit_ok ROOT venv_dir venv_exists
                    help args_cmd))) <= 2
    /\ (exit_ok [sys_executable; "-m"; "black"; "--line-length"; "88"; "--quiet"; "."]
        = false ->
        Cli.subprocesses
          (fst (DevTools.main sys_executable exit_ok ROOT venv_dir venv_exists
                  help (Some "format")))
        = [[sys_executable; "-m"; "black"; "--line-length"; "88"; "--quiet"; "."]])
    /\ (venv_exists = true ->
        Cli.subprocesses
          (fst (DevTools.main sys_executable exit_ok ROOT venv_dir venv_exists
                  help (Some "install-venv")))
        = []).
Proof.
  intros exe exit_ok ROOT venv_dir venv_exists help args_cmd.
  split; [|split; [|split]].
  - intros a. unfold DevTools.main.
    destruct args_cmd as [word|];
      [|intros [<- | []]; left; eauto].
    repeat match goal with
           | |- context [if String.eqb word ?w then _ else _] =>
               destruct (String.eqb word w)
           end;
      unfold DevTools.cmd_format, DevTools.cmd_lint, DevTools.cmd_test,
        DevTools.cmd_check_deps, DevTools.cmd_install_venv;
      try destruct venv_exists;
      rewrite ?and_then_run, ?dev_run;
      repeat match goal with
             | |- context [exit_ok ?c] => destruct (exit_ok c)
             end;
      cbn [fst snd app Cli.act];
      intros Hin;
      repeat (destruct Hin as [Hin | Hin]; [subst a; eauto|]);
      destruct Hin.
  - unfold DevTools.main.
    destruct args_cmd as [word|]; [|simpl; lia].
    repeat match goal with
           | |- context [if String.eqb word ?w then _ else _] =>
               destruct (String.eqb word w)
           end;
      unfold DevTools.cmd_format, DevTools.cmd_lint, DevTools.cmd_test,
        DevTools.cmd_check_deps, DevTools.cmd_install_venv;
      try destruct venv_exists;
      rewrite ?and_then_run, ?dev_run;
      repeat match goal with
             | |- context [exit_ok ?c] => destruct (exit_ok c)
             end;
      simpl; lia.
  - intros Hbad. unfold DevTools.main. cbn [String.eqb Ascii.eqb Bool.eqb].
    unfold DevTools.cmd_format. rewrite and_then_run, dev_run, Hbad. reflexivity.
  - intros ->. reflexivity.
Qed.

(** * The oracle step and the empty master list *)

(** X18.  [gpt_match] sends exactly one request, whatever comes back (it
    never retries), and of the answer it reads the first choice only. *)
Theorem gpt_match_single_request :
  forall (client : string -> list string -> completion)
         (master : list string) (name : string),
    trace (gpt_match client master name) = [ChatCompletion name master]
    /\ forall (client' : string -> list string -> completion)
              (first : option string) (others others' : list (option string)),
        client name master = Responded (first :: others) ->
        client' name master = Responded (first :: others') ->
        gpt_match client' master name = gpt_match client master name.
Proof.
  intros client master name. split.
  - now rewrite gpt_match_run.
  - intros client' first others others' H H'.
    rewrite !gpt_match_run, H, H'. now destruct first.
Qed.

(** X19.  With an empty master list every sheet gets the empty vendor,
    whatever the title, the threshold, the scorer and the oracle's answer. *)
Theorem sheet_vendor_empty_master :
  forall (partial_ratio : string -> string -> Q)
         (_RAPIDFUZZ gpt_available : bool)
         (client : string -> list string -> completion)
         (threshold : Q) (title : string),
    result (sheet_vendor partial_ratio _RAPIDFUZZ gpt_available client
              threshold [] title)
    = Return "".
Proof.
  intros pr rf gpt client threshold title.
  rewrite sheet_vendor_run. unfold result. cbn [snd]. f_equal.
  destruct (is_empty _ && gpt) eqn:E.
  - destruct (gpt_value_in client [] title) as [H | []]. exact H.
  - rewrite fuzzy_matching_run. destruct rf; reflexivity.
Qed.

(** * Further concrete runs *)

Lemma primary_selects_first_best_run :
  "Acme Corp" <> ""
  /\ exists before after,
      ["Beta LLC"; "Acme Corporation"; "Acme Corp"]
      = before
        ++ value (match_vendor Reference.partial_ratio Reference.ratio true
                    "Acme Corp" ["Beta LLC"; "Acme Corporation"; "Acme Corp"]
                    80%Q None) :: after.
Proof.
  split; [discriminate|].
  destruct (proj2 (match_vendor_primary_selects_first_best
                     Reference.partial_ratio Reference.ratio
                     "Acme Corp" ["Beta LLC"; "Acme Corporation"; "Acme Corp"]
                     80%Q None
                     ltac:(discriminate) ltac:(discriminate) ltac:(discriminate)))
    as (before & after & H & _).
  - exists "Acme Corp". split; [simpl; auto | vm_compute; discriminate].
  - exists before, after. exact H.
Defined.

Lemma degraded_selects_greatest_run :
  "Acme Corp" <> ""
  /\ In (value (match_vendor Reference.partial_ratio Reference.ratio false
                  "Acme Corp" ["Acme Corporation"; "Beta LLC"] 60%Q None))
       ["Acme Corporation"; "Beta LLC"].
Proof.
  split; [discriminate|].
  apply (match_vendor_degraded_selects_greatest
           Reference.partial_ratio Reference.ratio false
           "Acme Corp" ["Acme Corporation"; "Beta LLC"] 60%Q None).
  - discriminate.
  - now left.
  - exists "Acme Corporation". split; [simpl; auto | vm_compute; discriminate].
Defined.


Lemma sheet_vendor_agrees_run :
  "Acme Corp" <> ""
  /\ sheet_vendor Reference.partial_ratio true false (fun _ _ => Failed ValueError)
       80%Q ["Acme Corporation"; "Beta LLC"] "Acme Corp"
     = match_vendor Reference.partial_ratio Reference.ratio true
         "Acme Corp" ["Acme Corporation"; "Beta LLC"] 80%Q None.
Proof.
  split; [discriminate|].
  apply (sheet_vendor_agrees_with_match_vendor
           Reference.partial_ratio Reference.ratio (fun _ _ => Failed ValueError)
           80%Q ["Acme Corporation"; "Beta LLC"] "Acme Corp");
    discriminate.
Defined.

Lemma sheet_name_of_dotted_file :
  has_dot "csv" = false
  /\ sheet_name "report.2024.csv" = "report.2024".
Proof.
  split; [reflexivity|].
  exact (proj1 (sheet_name_drops_last_extension "report.2024" "csv" eq_refl)).
Defined.

Example sheet_name_truncates :
  sheet_name "quarterly-vendor-payments-north-america.xlsx"
  = "quarterly-vendor-payments-north".
Proof. reflexivity. Qed.

Example safe_title_example :
  displayName "Acme & Co (2024)" = "tbl_Acme___Co__2024_".
Proof. reflexivity. Qed.

Example read_requirements_example :
  CheckDeps.read_requirements
    ["# pinned"; "streamlit>=1.30 "; ""; "  -e ."; "pandas==2.1";
     "git+https://example.org/repo.git"; "https://example.org/pkg.whl";
     "pkg @ git+ssh://host/repo"]
  = ["streamlit>=1.30"; "pandas==2.1"].
Proof. vm_compute. reflexivity. Qed.

Lemma req_name_of_pinned_requirement :
  CheckDeps.plain_name "requests" = true
  /\ CheckDeps.req_name_and_spec None "requests>=2.31"
     = ("requests", "requests>=2.31").
Proof.
  split; [reflexivity|].
  apply (req_name_of_plain_requirement "requests" ">=" "2.31").
  - reflexivity.
  - simpl. auto.
Defined.

(** Whitespace before the operator is not part of the name; an operator the
    first pattern does not know is cut at its first character. *)
Example req_name_fallback_examples :
  CheckDeps.req_name_and_spec None "openpyxl  ~= 3.1" = ("openpyxl", "openpyxl  ~= 3.1")
  /\ CheckDeps.req_name_and_spec None "rapidfuzz!=3.0" = ("rapidfuzz", "rapidfuzz!=3.0")
  /\ CheckDeps.req_name_and_spec None "streamlit" = ("streamlit", "streamlit").
Proof. repeat split; vm_compute; reflexivity. Qed.

Lemma upgrade_after_yes :
  CheckDeps.lower (strip " YES ") = "yes"
  /\ Cli.subprocesses
       (fst (CheckDeps.upgrade_packages "python3" (Some " YES ") (fun _ => true)
               [ {| CheckDeps.name := "pandas"; CheckDeps.spec := "pandas>=2";
                    CheckDeps.installed := Some "1.5"; CheckDeps.latest := Some "2.2";
                    CheckDeps.status := "outdated" |};
                 {| CheckDeps.name := "openpyxl"; CheckDeps.spec := "openpyxl";
                    CheckDeps.installed := Some "3.1"; CheckDeps.latest := Some "3.1";
                    CheckDeps.status := "up-to-date" |};
                 {| CheckDeps.name := "rapidfuzz"; CheckDeps.spec := "rapidfuzz";
                    CheckDeps.installed := None; CheckDeps.latest := Some "3.6";
                    CheckDeps.status := "missing" |} ]
               false))
     = [["python3"; "-m"; "pip"; "install"; "-U"; "pandas"];
        ["python3"; "-m"; "pip"; "install"; "-U"; "rapidfuzz"]].
Proof.
  assert (H : CheckDeps.lower (strip " YES ") = "yes") by reflexivity.
  split; [exact H|].
  refine (proj1 (proj1 (upgrade_packages_installs_in_order
                          "python3" (Some " YES ") (fun _ => true) _ false
                          (or_intror (ex_intro _ " YES " (conj eq_refl (or_intror H)))))
                   (fun _ _ => eq_refl))).
Defined.

Example upgrade_declined :
  CheckDeps.upgrade_packages "python3" (Some "n") (fun _ => true)
    [ {| CheckDeps.name := "pandas"; CheckDeps.spec := "pandas>=2";
         CheckDeps.installed := Some "1.5"; CheckDeps.latest := Some "2.2";
         CheckDeps.status := "outdated" |} ]
    false
  = ([Cli.Print "Packages to install/upgrade:"; Cli.Print " - pandas";
      Cli.Input "Proceed with pip install -U for the above packages? [y/N]: ";
      Cli.Print "Aborted by user."],
     inr tt).
Proof. vm_compute. reflexivity. Qed.

Example print_table_example :
  CheckDeps.table_lines
    [ {| CheckDeps.name := "pandas"; CheckDeps.spec := "pandas>=2";
         CheckDeps.installed := Some "1.5.3"; CheckDeps.latest := None;
         CheckDeps.status := "unknown" |} ]
  = ["package  spec       installed  latest  status ";
     "----------------------------------------------";
     "pandas   pandas>=2  1.5.3      -       unknown"].
Proof. vm_compute. reflexivity. Qed.
